(* ===== verification/_CoqProject ===== *)
-Q . S2P
Prelude.v
JsString.v
Crypto.v
Users.v
UsersSpec.v
Auth.v
Strategy.v
Http.v
Async.v
