(* ===== verification/Prelude.v ===== *)
(** * Login_Con_Nest: a verification development

    The program ([src/src]) is a NestJS service that registers users,
    logs them in with a signed JSON Web Token and guards two routes with
    that token.  Its parts and how they interact:
    - [UsersService] ([users/users.service.ts]) owns the only state, an
      array of [User] records ([users/entities/user.entity.ts]) and an id
      counter; [create], [findAll], [findOne], [findByEmail],
      [findByEmailWithPassword], [update], [remove] (a logical delete).
    - [AuthService] ([auth/auth.service.ts]) calls [UsersService],
      [bcrypt] and the JWT service: [register], [login], [getProfile].
    - [JwtStrategy] ([auth/strategies/jwt.strategy.ts]) configures
      [passport-jwt]: bearer extraction, signature and expiry check
      against [JWT_SECRET], then [validate] builds [req.user].
    - [AuthController] ([auth/auth.controller.ts]) exposes
      [POST register], [POST login] and, behind [JwtAuthGuard],
      [GET profile] and [GET protected].

    Files (in dependency order):
    - [Prelude]: this header; the exceptions of [@nestjs/common]
      ([HttpException]); the completion type [outcome]; the state and
      exception monad [M S A := S -> outcome A * S] with its notation in
      [nest_scope], in which every method is written (mutations made
      before a [throw] persist, as in JavaScript); [update_first], the
      [arr.find(p)] followed by an in-place mutation of the object found;
      list lemmas; the hint databases [nest] and [nest_rw].
    - [JsString]: [toLowerCase], [trim] and [normalizeEmail]
      ([email.toLowerCase().trim()]) on 8-bit code units; idempotence of
      the normalisation (facts on characters are decided over all 256
      code units).
    - [Crypto]: the libraries as type classes with their contracts:
      [Bcrypt] (compare of a digest is equality of the first 72 bytes)
      and [JwtCodec] (decode inverts sign, accepts only signatures, is
      secret-bound, tokens are one word); an executable instance of each,
      used only to evaluate the witnesses.
    - [Users] (Module [UsersService]): the object as [UsersState], every
      method, the invariant [wf], the reachable states [reachable], the
      relation [password_blind] (objects equal up to the stored
      passwords), and the class-validator checks of [CreateUserDto]
      ([validateCreateUserDto], lengths as validator.js's [isLength]
      measures them).
    - [UsersSpec] (Module [UsersSpec]): the abstract store, a [gmap]
      from ids to records with the next id, its operations, and the
      abstraction [abs] of a [UsersState] to it.
    - [Auth] (Module [AuthService]): [register], [login], [getProfile]
      over the [UsersState] they are given, the states [auth_reachable]
      through the controller, [unique_emails].
    - [Strategy] (Modules [JwtStrategy], [Passport]): [JWT_SECRET],
      [validate], the constructor's options ([jwtStrategyOptions]), and
      the [passport-jwt] pipeline they configure: bearer extraction
      ([parseAuthHeader]), verification ([jwt_verify]),
      [authenticate] and the guard.
    - [Http] (Module [AuthController]): the four handlers, the route
      table of the decorators under [@Controller('auth')], and
      [dispatch], one request through router, guard and handler.
    - [Async] (Module [EventLoop]): [register] and [login] cut at their
      [await]s into slices, and an executable event loop [run_event]
      that runs any interleaving of requests on the shared store;
      [serial_reachable], the interleavings without overlapping
      registrations of one address.

    Theorems, by group (claim ids C1-C32 in the doc comments):
    - the store: [wf] holds in every reachable state; [create]/[findOne]
      and [create]/[findByEmail] round trips; [NotFoundException] exactly
      on unknown ids; [update] touches one record; the stored passwords
      never reach a response, under any sequence of calls (C4-C9);
      [remove] deactivates one record and keeps it (C31); records are
      never deleted and ids never reused: [findAll] lists ids [1..n] in
      creation order (C32);
    - authentication: a second registration of an address is refused;
      e-mails stay unique through the controller; a registered user logs
      in and gets a token for its id; wrong password and unknown address
      fail alike; deactivated users cannot log in; the stored password is
      the digest; the 72-byte bound of bcrypt (C1-C3, C10-C13); [update]
      can give two records one address (C21);
    - the guard: no token, no handler; expired tokens refused; accepted
      tokens are signatures under [JWT_SECRET]; end to end from
      registration to the protected route; another signing secret opens
      nothing (C14-C18);
    - interleaving: [wf] under every interleaving (C19); two overlapping
      registrations of one address both succeed (C20), and without such
      overlap addresses stay unique (C22); a login racing the
      registration of its address fails before the hash settles and
      proceeds after it (C29); a registration of a stored address is
      refused before any hash is computed (C30);
    - refinement: every call of the store commutes with [abs], and the
      results are the abstract machine's (C23-C24);
    - HTTP: only [POST /auth/register] writes the store (C25); the two
      guarded routes refuse a request without a bearer token before
      their handler runs (C26);
    - bounds: the id counter counts the [create] calls, so ids are
      exact JavaScript numbers while fewer than [2^53] users are created
      (C27); a token issued at [t0] with [expiresIn] [x] is accepted
      exactly while [floor(t/1000) < floor(t0/1000) + x] (C28).

    Modelling choices.  Numbers are [Z]: JavaScript numbers are doubles,
    exact on integers up to [2^53]; C27 shows that ids and the counter
    stay there while fewer than [2^53 - 1] users are created, so the
    unbounded integers of the model are the numbers of the code (there
    is no wrap-around to model).  Times are milliseconds passed as
    arguments; the JWT clock is [now / 1000].  The random salt of
    [bcrypt.hash] is an argument.  The model has no fuel: every
    definition is structurally recursive.  A login keeps a reference to
    the user object across its [await]s as the index of the object in
    the array (the array only grows, so the index always denotes the
    object the code holds).

    Not modelled, and why:
    - serialisation of the framework: the body is a record of strings
      and the router is the lookup of the decorators' routes, with
      NestJS's 404 answer;
    - whether the class-validator checks run: the validation pipe is
      set up in [main.ts], which is not in the sources; the checks of
      [CreateUserDto] are [validateCreateUserDto], with validator.js's
      [isEmail] grammar as a parameter (library code);
    - [app.module.ts], [auth.module.ts] and the users controller, which
      are not in the sources: the JWT module options are the record
      [JwtModuleOptions], and [update], [remove] and [findAll] are
      modelled as methods of the store but no route of [src/] calls
      them, so they are not interleaved with [login] on the event loop;
    - the internals of bcrypt and HMAC-SHA256: they enter only through
      the contracts [Bcrypt] and [JwtCodec];
    - non-ASCII case mapping and white space of [toLowerCase]/[trim];
    - the constructors' dependency injection ([auth.service.ts:14-17],
      [auth.controller.ts:16]): the injected services are the
      [Context] of the sections of [Auth] and [Async]; the remaining
      unmapped lines of [src/] are imports and comments. *)

From stdpp Require Import base decidable strings list.
From Stdlib Require Import String ZArith Lia DecimalString.

(** ** Notation scope of the development *)

Declare Scope nest_scope.
Delimit Scope nest_scope with nest.
Open Scope nest_scope.

(** ** Exceptions thrown by the NestJS services *)

(** The three [HttpException] subclasses of [@nestjs/common] that the
    services throw, each with the message the code passes to it. *)
Inductive HttpException :=
| NotFoundException (message : string)
| ConflictException (message : string)
| UnauthorizedException (message : string).

#[export] Instance HttpException_eq_dec : EqDecision HttpException.
Proof. solve_decision. Defined.

(** HTTP status a NestJS exception filter answers with. *)
Definition status (e : HttpException) : Z :=
  match e with
  | NotFoundException _ => 404
  | ConflictException _ => 409
  | UnauthorizedException _ => 401
  end.

(** The completion of a service call: a value or a thrown exception
    (synchronous [throw] and rejected promise alike). *)
Inductive outcome (A : Type) :=
| Ok (a : A)
| Thrown (e : HttpException).
Arguments Ok {A} a.
Arguments Thrown {A} e.

#[export] Instance outcome_eq_dec {A} `{EqDecision A} : EqDecision (outcome A).
Proof. solve_decision. Defined.

Definition is_ok {A} (o : outcome A) : bool :=
  match o with Ok _ => true | Thrown _ => false end.

(** ** A state and exception monad

    A method of a service object mutates the object's fields and may
    throw; mutations done before the [throw] persist, as in JavaScript.
    [M S A] is such a method on an object with fields [S]. *)
Definition M (S A : Type) : Type := S -> outcome A * S.

Definition ret {S A} (a : A) : M S A := fun s => (Ok a, s).

Definition bind {S A B} (m : M S A) (k : A -> M S B) : M S B :=
  fun s =>
    match m s with
    | (Ok a, s') => k a s'
    | (Thrown e, s') => (Thrown e, s')
    end.

Definition throw {S A} (e : HttpException) : M S A := fun s => (Thrown e, s).
Definition get {S} : M S S := fun s => (Ok s, s).
Definition put {S} (s : S) : M S unit := fun _ => (Ok tt, s).

Notation "x <- m ;; k" := (bind m (fun x => k))
  (at level 100, m at next level, right associativity) : nest_scope.
Notation "m ;; k" := (bind m (fun _ => k))
  (at level 100, right associativity) : nest_scope.

(** ** Lists used as JavaScript arrays *)

(** [arr.find(p)] followed by an in-place mutation [f] of the element
    found: the first element that satisfies [p] is replaced by [f] of it,
    every other element (a later one satisfying [p] included) is kept. *)
Fixpoint update_first {A} (p : A -> bool) (f : A -> A) (l : list A) : list A :=
  match l with
  | [] => []
  | x :: l' => if p x then f x :: l' else x :: update_first p f l'
  end.

(** ** Numbers printed in template literals *)

(** [`${n}`] for an integral JavaScript number: its decimal digits. *)
Definition string_of_Z (z : Z) : string :=
  NilZero.string_of_int (Z.to_int z).

(** ** Automation *)

Create HintDb nest discriminated.
Create Rewrite HintDb nest_rw.

(** [bind] is associative, pointwise in the start state. *)
Lemma bind_assoc {S A B C} (m : M S A) (k : A -> M S B) (h : B -> M S C) (s : S) :
  bind (bind m k) h s = bind m (fun a => bind (k a) h) s.
Proof. unfold bind. by destruct (m s) as [[a|e] s']. Qed.

Lemma bind_Ok {S A B} (m : M S A) (k : A -> M S B) (s s' : S) (a : A) :
  m s = (Ok a, s') -> bind m k s = k a s'.
Proof. unfold bind. by intros ->. Qed.

Lemma bind_Thrown {S A B} (m : M S A) (k : A -> M S B) (s s' : S) e :
  m s = (Thrown e, s') -> bind m k s = (Thrown e, s').
Proof. unfold bind. by intros ->. Qed.

(** A program whose steps leave the state as they find it. *)
Lemma bind_same_state {S A B} (m : M S A) (k : A -> M S B) (s : S) :
  snd (m s) = s -> (forall a, snd (k a s) = s) -> snd (bind m k s) = s.
Proof. unfold bind. destruct (m s) as [[a|e] s']; simpl; intros ->; auto. Qed.

#[export] Hint Rewrite @bind_assoc : nest_rw.

(** Reduce a monadic program whose steps are concrete. *)
Ltac run_M := cbn [bind ret throw get put] in *.

(** Case on the boolean tests of the code, turning them into the
    propositions they decide. *)
Ltac case_bool :=
  match goal with
  | |- context [if String.eqb ?x ?y then _ else _] => destruct (String.eqb_spec x y)
  | |- context [if Z.eqb ?x ?y then _ else _] => destruct (Z.eqb_spec x y)
  | |- context [if Z.ltb ?x ?y then _ else _] => destruct (Z.ltb_spec x y)
  | |- context [if Z.leb ?x ?y then _ else _] => destruct (Z.leb_spec x y)
  end.

Lemma find_Some_In {A} (p : A -> bool) l x : find p l = Some x -> In x l /\ p x = true.
Proof.
  induction l as [|y l IH]; simpl; [done|].
  destruct (p y) eqn:Hy; [intros [= <-]; auto|]. intros H. destruct (IH H); auto.
Qed.

Section UpdateFirst.
Context {A : Type} (p : A -> bool) (f : A -> A).

Lemma length_update_first l : List.length (update_first p f l) = List.length l.
Proof. induction l as [|x l IH]; simpl; [done|]. destruct (p x); simpl; auto. Qed.

(** Nothing is found: nothing is changed. *)
Lemma update_first_none l : find p l = None -> update_first p f l = l.
Proof.
  induction l as [|x l IH]; simpl; [done|].
  destruct (p x); [done|]. intros H. by rewrite IH.
Qed.

(** A projection [g] that [f] does not change is kept by the update. *)
Lemma map_update_first {B} (g : A -> B) l :
  (forall x, g (f x) = g x) -> map g (update_first p f l) = map g l.
Proof.
  intros Hg. induction l as [|x l IH]; simpl; [done|].
  destruct (p x); simpl; by rewrite ?Hg, ?IH.
Qed.

(** Every element of the updated list is an element of the old one or
    the image by [f] of one. *)
Lemma in_update_first l y :
  In y (update_first p f l) -> In y l \/ exists x, In x l /\ y = f x.
Proof.
  induction l as [|x l IH]; simpl; [done|].
  destruct (p x); simpl.
  - intros [<-|H]; [right; eauto|left; auto].
  - intros [<-|H]; [left; auto|].
    destruct (IH H) as [|(x' & ? & ?)]; [left; auto|right; eauto].
Qed.

(** The element found is replaced by its image. *)
Lemma find_update_first l x :
  find p l = Some x -> p (f x) = true -> find p (update_first p f l) = Some (f x).
Proof.
  induction l as [|y l IH]; simpl; [done|].
  destruct (p y) eqn:Hy; simpl.
  - intros [= ->] ->. done.
  - rewrite Hy. auto.
Qed.
(** A property that [f] preserves holds of the whole updated list. *)
Lemma Forall_update_first (P : A -> Prop) l :
  (forall x, P x -> P (f x)) -> Forall P l -> Forall P (update_first p f l).
Proof.
  intros Hf. induction 1 as [|x l Hx Hl IH]; simpl; [done|].
  destruct (p x); constructor; auto.
Qed.

(** Elements not satisfying [p] before the one found are unchanged:
    the search for any [q] that excludes [p] sees the same list. *)
Lemma find_update_first_other (q : A -> bool) l :
  (forall x, q x = true -> p x = false) ->
  (forall x, q (f x) = q x) ->
  find q (update_first p f l) = find q l.
Proof.
  intros Hqp Hqf. induction l as [|x l IH]; simpl; [done|].
  destruct (p x) eqn:Hp; simpl.
  - rewrite Hqf. destruct (q x) eqn:Hq; [by rewrite Hqp in Hp|]. done.
  - destruct (q x); [done|]. exact IH.
Qed.
(** When the element [u] that [q] finds is the only one satisfying
    [p], updating that one is seen by [q]. *)
Lemma find_update_first_same (q : A -> bool) l u :
  find q l = Some u -> p u = true ->
  (forall x, In x l -> p x = true -> x = u) -> q (f u) = true ->
  find q (update_first p f l) = Some (f u).
Proof.
  intros Hfind Hpu Huniq Hqf. induction l as [|x l IH]; simpl in *; [done|].
  destruct (q x) eqn:Hq.
  - injection Hfind as <-. rewrite Hpu. simpl. by rewrite Hqf.
  - destruct (p x) eqn:Hp.
    + assert (x = u) as -> by (apply Huniq; auto).
      apply find_Some_In in Hfind as [_ Hqu]. congruence.
    + simpl. rewrite Hq. apply IH; auto.
Qed.
(** When some element is found, the list after the mutation holds [f]
    of a found element. *)
Lemma update_first_found l :
  (exists x, In x l /\ p x = true) -> exists x, p x = true /\ In (f x) (update_first p f l).
Proof.
  induction l as [|y l IH]; simpl; [by intros (? & [] & _)|].
  intros (x & [<-|Hx] & Hp).
  - rewrite Hp. exists y. split; [done|by left].
  - destruct (p y) eqn:Hy; [exists y; split; [done|by left]|].
    destruct (IH (ex_intro _ x (conj Hx Hp))) as (z & Hz & Hin). exists z. split; [done|by right].
Qed.

(** A mutation that gives the found element the key [g v] of an element
    [v] it does not touch leaves the key twice. *)
Lemma update_first_dup {B} (g : A -> B) l v :
  In v l -> p v = false -> (forall x, p x = true -> g (f x) = g v) ->
  (exists x, In x l /\ p x = true) -> ~ NoDup (map g (update_first p f l)).
Proof.
  intros Hv Hpv Hg. induction l as [|y l IH]; [done|].
  intros Hex. simpl. destruct (p y) eqn:Hy; simpl; rewrite NoDup_cons; intros [Hnin Hnd].
  - destruct Hv as [->|Hv]; [congruence|]. apply Hnin. rewrite (Hg y Hy).
    apply list_elem_of_In, in_map, Hv.
  - destruct Hex as (x & [<-|Hx] & Hp); [congruence|].
    destruct Hv as [<-|Hv].
    + destruct (update_first_found l (ex_intro _ x (conj Hx Hp))) as (z & Hz & Hin).
      apply Hnin. rewrite <- (Hg z Hz). apply list_elem_of_In, in_map, Hin.
    + exact (IH Hv (ex_intro _ x (conj Hx Hp)) Hnd).
Qed.

End UpdateFirst.

(** [find p l = None] exactly when no element satisfies [p]. *)
Lemma find_None_iff {A} (p : A -> bool) l : find p l = None <-> Forall (fun x => p x = false) l.
Proof.
  induction l as [|x l IH]; simpl; [split; by auto|].
  destruct (p x) eqn:Hp; split.
  - done.
  - intros H. inversion H; congruence.
  - intros H. constructor; [done|]. by apply IH.
  - intros H. inversion H. by apply IH.
Qed.

(** A duplicate-free image identifies the elements. *)
Lemma NoDup_map_inj {A B} (g : A -> B) l x y :
  NoDup (map g l) -> In x l -> In y l -> g x = g y -> x = y.
Proof.
  induction l as [|z l IH]; simpl; [done|].
  intros Hnd. inversion Hnd as [|? ? Hz Hl]; subst. rewrite list_elem_of_In in Hz.
  intros [<-|Hx] [<-|Hy] Hg; auto.
  - destruct Hz. rewrite Hg. by apply in_map.
  - destruct Hz. rewrite <- Hg. by apply in_map.
Qed.

(** [arr.push(x)] of a fresh element keeps the array duplicate-free. *)
Lemma NoDup_app_fresh {A} (l : list A) x : NoDup l -> ~ In x l -> NoDup (l ++ [x]).
Proof.
  intros Hl Hx. apply NoDup_app. split_and!; [done| |apply NoDup_singleton].
  intros y Hy ->%list_elem_of_singleton. by apply Hx, list_elem_of_In.
Qed.

(** [arr.find] on a concatenation. *)
Lemma find_app {A} (p : A -> bool) l1 l2 :
  find p (l1 ++ l2) = match find p l1 with Some x => Some x | None => find p l2 end.
Proof. induction l1 as [|x l1 IH]; simpl; [done|]. by destruct (p x). Qed.

Lemma find_Forall_false {A} (p : A -> bool) l :
  Forall (fun x => p x = false) l -> find p l = None.
Proof. induction 1 as [|x l Hx _ IH]; simpl; [done|]. by rewrite Hx. Qed.



#[export] Hint Resolve length_update_first update_first_none : nest.
