(* ===== verification/JsString.v ===== *)
(** * JsString: the JavaScript string methods the services call

    [String.prototype.toLowerCase] and [String.prototype.trim], on
    strings of 8-bit code units, and the e-mail normalisation
    [email.toLowerCase().trim()] written out at
    [src/src/users/users.service.ts:19,43,59] and
    [src/src/auth/auth.service.ts:27,60].  The theorems show that the
    normalisation is idempotent, which is what lets the services
    normalise an already normalised address a second time. *)

From stdpp Require Import base decidable strings list.
From Stdlib Require Import String Ascii ZArith Lia Bool.
From S2P Require Import Prelude.

Open Scope string_scope.

(** ** Characters *)

(** ASCII upper-case letters ['A' .. 'Z'].  Non-ASCII code units are
    left unchanged by the model of [toLowerCase] (see the header). *)
Definition is_upper (c : ascii) : bool :=
  let n := nat_of_ascii c in (65 <=? n)%nat && (n <=? 90)%nat.

Definition char_toLowerCase (c : ascii) : ascii :=
  if is_upper c then ascii_of_nat (nat_of_ascii c + 32) else c.

(** ECMAScript [WhiteSpace] and [LineTerminator] code points below 128:
    TAB, LF, VT, FF, CR and SPACE. *)
Definition is_js_whitespace (c : ascii) : bool :=
  match nat_of_ascii c with
  | 9 | 10 | 11 | 12 | 13 | 32 => true
  | _ => false
  end%nat.

(** ** Strings *)

Fixpoint toLowerCase (s : string) : string :=
  match s with
  | EmptyString => EmptyString
  | String c s' => String (char_toLowerCase c) (toLowerCase s')
  end.

(** Drop the leading white space. *)
Fixpoint trimStart (s : string) : string :=
  match s with
  | EmptyString => EmptyString
  | String c s' => if is_js_whitespace c then trimStart s' else s
  end.

(** Drop the trailing white space: a white-space character is dropped
    exactly when everything after it is dropped too. *)
Fixpoint trimEnd (s : string) : string :=
  match s with
  | EmptyString => EmptyString
  | String c s' =>
      let t := trimEnd s' in
      if is_js_whitespace c && String.eqb t EmptyString then EmptyString
      else String c t
  end.

Definition trim (s : string) : string := trimEnd (trimStart s).

(** [email.toLowerCase().trim()]. *)
Definition normalizeEmail (email : string) : string := trim (toLowerCase email).

(** ** Facts on single characters, decided over all 256 code units *)

Definition all_ascii : list ascii := map ascii_of_nat (seq 0 256).

Lemma in_all_ascii c : In c all_ascii.
Proof.
  unfold all_ascii. rewrite in_map_iff. exists (nat_of_ascii c).
  split; [apply ascii_nat_embedding|].
  apply in_seq. pose proof (nat_ascii_bounded c). lia.
Qed.

(** A boolean property of characters holds of every character when it
    holds of each of the 256 listed in [all_ascii]. *)
Lemma ascii_forall (P : ascii -> bool) :
  forallb P all_ascii = true -> forall c, P c = true.
Proof. rewrite forallb_forall. intros H c. apply H, in_all_ascii. Qed.

Ltac by_ascii_cases :=
  intros c; revert c; apply ascii_forall; vm_compute; reflexivity.

Lemma char_toLowerCase_idem :
  forall c, Ascii.eqb (char_toLowerCase (char_toLowerCase c)) (char_toLowerCase c) = true.
Proof. by_ascii_cases. Qed.

Lemma is_js_whitespace_lower :
  forall c, Bool.eqb (is_js_whitespace (char_toLowerCase c)) (is_js_whitespace c) = true.
Proof. by_ascii_cases. Qed.

Lemma char_toLowerCase_idem_eq c : char_toLowerCase (char_toLowerCase c) = char_toLowerCase c.
Proof. apply Ascii.eqb_eq, char_toLowerCase_idem. Qed.

Lemma is_js_whitespace_lower_eq c : is_js_whitespace (char_toLowerCase c) = is_js_whitespace c.
Proof. apply Bool.eqb_prop, is_js_whitespace_lower. Qed.

#[export] Hint Rewrite char_toLowerCase_idem_eq is_js_whitespace_lower_eq : nest_rw.

(** ** Facts on strings *)

Lemma toLowerCase_idem s : toLowerCase (toLowerCase s) = toLowerCase s.
Proof. induction s as [|c s IH]; simpl; [done|]. by rewrite char_toLowerCase_idem_eq, IH. Qed.

Lemma toLowerCase_empty s : toLowerCase s = EmptyString <-> s = EmptyString.
Proof. destruct s; simpl; split; congruence. Qed.

Lemma toLowerCase_eqb_empty s :
  String.eqb (toLowerCase s) EmptyString = String.eqb s EmptyString.
Proof. by destruct s. Qed.

Lemma trimStart_toLowerCase s : trimStart (toLowerCase s) = toLowerCase (trimStart s).
Proof.
  induction s as [|c s IH]; simpl; [done|].
  rewrite is_js_whitespace_lower_eq. by destruct (is_js_whitespace c).
Qed.

Lemma trimEnd_toLowerCase s : trimEnd (toLowerCase s) = toLowerCase (trimEnd s).
Proof.
  induction s as [|c s IH]; simpl; [done|].
  rewrite is_js_whitespace_lower_eq, IH, toLowerCase_eqb_empty.
  by destruct (is_js_whitespace c && String.eqb (trimEnd s) EmptyString).
Qed.

Lemma trim_toLowerCase s : trim (toLowerCase s) = toLowerCase (trim s).
Proof. unfold trim. by rewrite trimStart_toLowerCase, trimEnd_toLowerCase. Qed.

Lemma trimStart_idem s : trimStart (trimStart s) = trimStart s.
Proof.
  induction s as [|c s IH]; simpl; [done|].
  destruct (is_js_whitespace c) eqn:Hc; simpl; rewrite ?Hc; done.
Qed.

Lemma trimEnd_idem s : trimEnd (trimEnd s) = trimEnd s.
Proof.
  induction s as [|c s IH]; simpl; [done|].
  destruct (is_js_whitespace c && String.eqb (trimEnd s) EmptyString) eqn:Hc;
    simpl; [done|]. by rewrite IH, Hc.
Qed.

(** The two halves of [trim] commute. *)
Lemma trimStart_trimEnd s : trimStart (trimEnd s) = trimEnd (trimStart s).
Proof.
  induction s as [|c s IH]; simpl; [done|].
  destruct (is_js_whitespace c) eqn:Hc; simpl.
  - destruct (String.eqb_spec (trimEnd s) EmptyString) as [He|He]; simpl.
    + by rewrite <- IH, He.
    + by rewrite Hc.
  - by rewrite Hc.
Qed.

Lemma trim_idem s : trim (trim s) = trim s.
Proof.
  unfold trim. by rewrite trimStart_trimEnd, trimStart_idem, trimEnd_idem.
Qed.

(** Normalising an address a second time changes nothing. *)
Lemma normalizeEmail_idem_eq e : normalizeEmail (normalizeEmail e) = normalizeEmail e.
Proof.
  unfold normalizeEmail.
  by rewrite (trim_toLowerCase (trim _)), trim_idem, !trim_toLowerCase, toLowerCase_idem.
Qed.

#[export] Hint Rewrite toLowerCase_idem trim_idem normalizeEmail_idem_eq : nest_rw.
