(* ===== verification/Crypto.v ===== *)
(** * Crypto: the interfaces of the two libraries the services call

    [bcrypt] (hash and compare, called at
    [src/src/auth/auth.service.ts:36,74]) and [@nestjs/jwt] /
    [jsonwebtoken] (sign, called at [auth.service.ts:87]; verify, called
    by [passport-jwt] for the strategy of
    [src/src/auth/strategies/jwt.strategy.ts]).  Neither library is code
    of this repository: each is a type class whose laws are the
    library's contract, and the services are proved against the class.
    An executable instance of each class shows that the laws can be met
    and lets the witnesses compute. *)

From stdpp Require Import base decidable strings list.
From Stdlib Require Import String Ascii ZArith Lia Bool DecimalString DecimalZ.
From S2P Require Import Prelude JsString.

Open Scope string_scope.

(** ** bcrypt *)

(** bcrypt reads at most 72 bytes of the password. *)
Definition bcrypt_input (p : string) : string := substring 0 72 p.

(** [bcrypt.hash(plaintext, saltRounds)] draws a random salt; the model
    takes that salt as an argument, so a hash is a function of its
    inputs.  [bcrypt.compare(plaintext, digest)] re-hashes with the salt
    and cost stored in the digest. *)
Class Bcrypt := {
  bcrypt_hash : string -> Z -> string -> string;
  bcrypt_compare : string -> string -> bool;
  bcrypt_compare_hash p q rounds salt :
    bcrypt_compare p (bcrypt_hash q rounds salt) =
    String.eqb (bcrypt_input p) (bcrypt_input q)
}.

(** A password of at most 72 bytes is read whole. *)
Lemma substring_0_all n p : (String.length p <= n)%nat -> substring 0 n p = p.
Proof.
  revert n. induction p as [|c p IH]; intros [|n] Hn; simpl in *; try done; [lia|].
  f_equal. apply IH. lia.
Qed.

Lemma bcrypt_input_short p : (String.length p <= 72)%nat -> bcrypt_input p = p.
Proof. apply substring_0_all. Qed.

(** ** JSON Web Tokens *)

(** The payload [AuthService.login] signs ([auth.service.ts:80-85]). *)
Record JwtPayload := mkJwtPayload {
  sub : Z;
  payload_email : string;
  payload_nombre : string;
  payload_username : string
}.

(** What the token carries: the payload and the registered claims
    [iat] and [exp] (seconds since the epoch) that [jsonwebtoken.sign]
    adds. *)
Record JwtClaims := mkJwtClaims {
  claims_payload : JwtPayload;
  iat : Z;
  exp : option Z
}.

#[export] Instance JwtPayload_eq_dec : EqDecision JwtPayload.
Proof. solve_decision. Defined.
#[export] Instance JwtClaims_eq_dec : EqDecision JwtClaims.
Proof. solve_decision. Defined.

(** A token is a single word of the [Authorization] header: non-empty
    and free of white space (a JWT is base64url text and dots). *)
Fixpoint string_forall (P : ascii -> bool) (s : string) : bool :=
  match s with
  | EmptyString => true
  | String c s' => P c && string_forall P s'
  end.

Definition is_word (t : string) : bool :=
  negb (String.eqb t EmptyString) && string_forall (fun c => negb (is_js_whitespace c)) t.

(** HS256 signing with a shared secret and verification of the
    signature.  [jwt_decode secret t] is [Some c] when [t] is a token
    carrying [c] signed with [secret]; expiry is checked by the caller
    (see [Strategy]).  The laws: a signed token decodes to what was signed;
    a token decodes only if it is the signature of what it decodes to
    (the signature binds the claims); a token signed with one secret
    does not decode with another; a token is one word. *)
Class JwtCodec := {
  jwt_sign : string -> JwtClaims -> string;
  jwt_decode : string -> string -> option JwtClaims;
  jwt_decode_sign secret c : jwt_decode secret (jwt_sign secret c) = Some c;
  jwt_decode_sound secret t c : jwt_decode secret t = Some c -> t = jwt_sign secret c;
  jwt_decode_other_secret secret secret' c :
    secret <> secret' -> jwt_decode secret' (jwt_sign secret c) = None;
  jwt_sign_word secret c : is_word (jwt_sign secret c) = true
}.

(** ** Executable instances *)

(** A stand-in for bcrypt that meets the law: the digest is the part of
    the password bcrypt reads (no salt, no one-way function: it is only
    used to evaluate the witnesses). *)
#[export] Instance model_bcrypt : Bcrypt := {|
  bcrypt_hash q _ _ := bcrypt_input q;
  bcrypt_compare p h := String.eqb (bcrypt_input p) h;
  bcrypt_compare_hash _ _ _ _ := eq_refl
|}.

(** A stand-in for HS256: every field is written as letters ['a'..'p']
    (two per byte), the fields are joined by dots, and the secret is the
    last field (in place of the HMAC).  Decoding splits, decodes, and
    accepts only the exact signature of what it decoded. *)

Lemma string_forall_app P s t :
  string_forall P (s ++ t) = string_forall P s && string_forall P t.
Proof. induction s as [|c s IH]; simpl; [done|]. by rewrite IH, andb_assoc. Qed.

Section Split.
Context (d : ascii).

Definition no_char (s : string) : bool := string_forall (fun c => negb (Ascii.eqb c d)) s.

Fixpoint split_on (s : string) : list string :=
  match s with
  | EmptyString => [EmptyString]
  | String c s' =>
      if Ascii.eqb c d then EmptyString :: split_on s'
      else match split_on s' with
           | w :: ws => String c w :: ws
           | [] => [String c EmptyString]
           end
  end.

Fixpoint join_on (ws : list string) : string :=
  match ws with
  | [] => EmptyString
  | [w] => w
  | w :: ws' => w ++ String d (join_on ws')
  end.

Lemma split_on_word w : no_char w = true -> split_on w = [w].
Proof.
  induction w as [|c w IH]; simpl; [done|].
  intros [Hc Hw]%andb_prop. apply negb_true_iff in Hc. by rewrite Hc, IH.
Qed.

Lemma split_on_app w s :
  no_char w = true -> split_on (w ++ String d s) = w :: split_on s.
Proof.
  induction w as [|c w IH]; simpl.
  - by rewrite Ascii.eqb_refl.
  - intros [Hc Hw]%andb_prop. apply negb_true_iff in Hc. by rewrite Hc, IH.
Qed.

Lemma split_join ws : ws <> [] -> Forall (fun w => no_char w = true) ws -> split_on (join_on ws) = ws.
Proof.
  induction ws as [|w ws IH]; [done|]. intros _ Hall. inversion Hall; subst.
  destruct ws as [|w' ws']; [by apply split_on_word|].
  simpl join_on. rewrite split_on_app by done. f_equal. by apply IH.
Qed.
End Split.

Definition nibble_char (n : nat) : ascii := ascii_of_nat (97 + n).

Definition enc_char (c : ascii) : string :=
  let n := nat_of_ascii c in
  String (nibble_char (n / 16)) (String (nibble_char (n mod 16)) EmptyString).

Definition dec_pair (a b : ascii) : ascii :=
  ascii_of_nat ((nat_of_ascii a - 97) * 16 + (nat_of_ascii b - 97)).

Fixpoint enc_field (s : string) : string :=
  match s with
  | EmptyString => EmptyString
  | String c s' => enc_char c ++ enc_field s'
  end.

Fixpoint dec_field (s : string) : string :=
  match s with
  | String a (String b s') => String (dec_pair a b) (dec_field s')
  | _ => EmptyString
  end.

(** The two letters of a byte decode to it, and are neither dots nor
    white space (decided over the 256 bytes). *)
Lemma dec_pair_enc_char :
  forall c, Ascii.eqb (dec_pair (nibble_char (nat_of_ascii c / 16))
                                (nibble_char (nat_of_ascii c mod 16))) c = true.
Proof. by_ascii_cases. Qed.

Definition no_ws (s : string) : bool := string_forall (fun c => negb (is_js_whitespace c)) s.

Lemma enc_char_letters :
  forall c, no_char "." (enc_char c) && no_ws (enc_char c) = true.
Proof. by_ascii_cases. Qed.

Lemma dec_enc_field s : dec_field (enc_field s) = s.
Proof.
  induction s as [|c s IH]; [done|].
  change (String (dec_pair (nibble_char (nat_of_ascii c / 16))
                           (nibble_char (nat_of_ascii c mod 16))) (dec_field (enc_field s))
          = String c s).
  by rewrite (proj1 (Ascii.eqb_eq _ _) (dec_pair_enc_char c)), IH.
Qed.

Lemma enc_field_letters s : no_char "." (enc_field s) = true /\ no_ws (enc_field s) = true.
Proof.
  induction s as [|c s [IH1 IH2]]; [done|]. simpl enc_field.
  pose proof (enc_char_letters c) as Hc. apply andb_prop in Hc.
  unfold no_char, no_ws in *. by rewrite !string_forall_app, IH1, IH2, !andb_true_r.
Qed.

Definition enc_Z (z : Z) : string := NilEmpty.string_of_int (Z.to_int z).
Definition dec_Z (s : string) : option Z := option_map Z.of_int (NilEmpty.int_of_string s).

Lemma dec_enc_Z z : dec_Z (enc_Z z) = Some z.
Proof. unfold dec_Z, enc_Z. rewrite NilEmpty.isi. simpl. by rewrite DecimalZ.of_to. Qed.

Definition enc_optZ (o : option Z) : string :=
  match o with
  | None => "n"
  | Some z => String "s" (enc_Z z)
  end.

Definition dec_optZ (s : string) : option (option Z) :=
  match s with
  | String c r =>
      if Ascii.eqb c "n" then (if String.eqb r EmptyString then Some None else None)
      else if Ascii.eqb c "s" then option_map Some (dec_Z r) else None
  | EmptyString => None
  end.

Lemma dec_enc_optZ o : dec_optZ (enc_optZ o) = Some o.
Proof. destruct o as [z|]; simpl; [by rewrite dec_enc_Z|done]. Qed.

Definition token_fields (secret : string) (c : JwtClaims) : list string :=
  let p := claims_payload c in
  map enc_field [enc_Z (sub p); payload_email p; payload_nombre p; payload_username p;
                 enc_Z (iat c); enc_optZ (exp c); secret].

Definition model_sign (secret : string) (c : JwtClaims) : string :=
  join_on "." (token_fields secret c).

Definition model_parse (t : string) : option (JwtClaims * string) :=
  match map dec_field (split_on "." t) with
  | [a; e; n; u; i; x; s] =>
      match dec_Z a, dec_Z i, dec_optZ x with
      | Some sb, Some ia, Some ex => Some (mkJwtClaims (mkJwtPayload sb e n u) ia ex, s)
      | _, _, _ => None
      end
  | _ => None
  end.

Definition model_decode (secret t : string) : option JwtClaims :=
  match model_parse t with
  | Some (c, s) =>
      if String.eqb s secret && String.eqb (model_sign secret c) t then Some c else None
  | None => None
  end.

Lemma model_parse_sign secret c : model_parse (model_sign secret c) = Some (c, secret).
Proof.
  unfold model_parse, model_sign.
  rewrite split_join.
  - cbn [map token_fields]. rewrite !dec_enc_field, !dec_enc_Z, dec_enc_optZ.
    by destruct c as [[]].
  - done.
  - unfold token_fields. cbn [map].
    repeat constructor; apply enc_field_letters.
Qed.

Lemma string_forall_join P d ws :
  P d = true -> Forall (fun w => string_forall P w = true) ws ->
  string_forall P (join_on d ws) = true.
Proof.
  intros Hd. induction 1 as [|w ws Hw Hws IH]; [done|].
  destruct ws as [|w' ws']; [done|].
  simpl join_on. by rewrite string_forall_app, Hw; simpl; rewrite Hd.
Qed.

#[export] Instance model_jwt : JwtCodec.
Proof.
  refine {| jwt_sign := model_sign; jwt_decode := model_decode |}.
  - intros secret c. unfold model_decode. rewrite model_parse_sign.
    by rewrite !String.eqb_refl.
  - intros secret t c. unfold model_decode.
    destruct (model_parse t) as [[c' s]|]; [|done].
    destruct (String.eqb_spec s secret), (String.eqb_spec (model_sign secret c') t);
      simpl; congruence.
  - intros secret secret' c Hne. unfold model_decode. rewrite model_parse_sign.
    by destruct (String.eqb_spec secret secret').
  - intros secret c. unfold is_word. apply andb_true_intro. split.
    + unfold model_sign, token_fields. cbn [map join_on].
      by destruct (enc_field (enc_Z (sub (claims_payload c)))).
    + apply string_forall_join; [done|]. unfold token_fields. cbn [map].
      repeat constructor; apply enc_field_letters.
Defined.
