(* ===== verification/Users.v ===== *)
(** * Users: [UsersService] ([src/src/users/users.service.ts])

    The service object holds the array [users] and the counter
    [idCounter] ([users.service.ts:8-9]); [UsersState] is that object.
    Every method is a program of the state and exception monad [M] of
    the prelude.  Theorems: the store invariant ([wf]) holds in every
    state the methods can reach; [create] and the lookups round-trip;
    [findOne], [update], [remove] throw [NotFoundException] exactly on an
    unknown id; the stored passwords never reach a response: two
    objects that differ only in them answer every method alike, and
    stay so under every call ([password_blind], an equivalence);
    after any sequence of calls the counter is one more than the number
    of [create] calls, so ids are exact JavaScript numbers below
    [2^53]; [remove] deactivates one record and keeps it, so [findAll]
    lists the ids [1..n] in creation order.  The class-validator bounds
    of [CreateUserDto] are [validateCreateUserDto], with lengths as
    validator.js's [isLength] measures them. *)

From stdpp Require Import base decidable strings list.
From Stdlib Require Import String ZArith Lia Bool.
From S2P Require Import Prelude JsString.

Open Scope string_scope.
Open Scope Z_scope.

Module UsersService.

(** [src/src/users/entities/user.entity.ts]: dates are milliseconds
    since the epoch; [isActive] is optional ([isActive?: boolean]). *)
Record User := mkUser {
  id : Z;
  nombre : string;
  apellido : string;
  username : string;
  email : string;
  password : string;
  createdAt : Z;
  updatedAt : Z;
  isActive : option bool
}.

#[export] Instance User_eq_dec : EqDecision User.
Proof. solve_decision. Defined.

(** [Omit<User, 'password'>]. *)
Record SafeUser := mkSafeUser {
  safe_id : Z;
  safe_nombre : string;
  safe_apellido : string;
  safe_username : string;
  safe_email : string;
  safe_createdAt : Z;
  safe_updatedAt : Z;
  safe_isActive : option bool
}.

#[export] Instance SafeUser_eq_dec : EqDecision SafeUser.
Proof. solve_decision. Defined.

(** [src/src/users/dto/create-user.dto.ts]. *)
Record CreateUserDto := mkCreateUserDto {
  dto_nombre : string;
  dto_apellido : string;
  dto_username : string;
  dto_email : string;
  dto_password : string
}.

(** The lead byte of a UTF-8 encoded character (continuation bytes are
    [10xxxxxx]). *)
Definition utf8_lead (c : Ascii.ascii) : nat :=
  let b := Ascii.nat_of_ascii c in
  if ((128 <=? b) && (b <? 192))%nat then 0 else 1.

(** The bytes [EF B8 8E] and [EF B8 8F]: U+FE0E and U+FE0F, the
    variation selectors. *)
Definition variation_selector (c1 c2 c3 : Ascii.ascii) : bool :=
  (Ascii.nat_of_ascii c1 =? 239)%nat && (Ascii.nat_of_ascii c2 =? 184)%nat
  && ((Ascii.nat_of_ascii c3 =? 142)%nat || (Ascii.nat_of_ascii c3 =? 143)%nat).

(** The length validator.js's [isLength] measures, for the UTF-8 bytes
    of the text: [str.length] less the surrogate pairs (so one per
    character) and less the variation selectors U+FE0E and U+FE0F. *)
Fixpoint validator_length (s : string) : nat :=
  match s with
  | EmptyString => 0
  | String c s' =>
      match s' with
      | String c2 (String c3 s'') =>
          if variation_selector c c2 c3 then validator_length s''
          else utf8_lead c + validator_length s'
      | _ => utf8_lead c + validator_length s'
      end
  end%nat.

(** [@MinLength(lo) @MaxLength(hi)] of class-validator, which call
    validator.js's [isLength(value, { min: lo, max: hi })]. *)
Definition length_between (lo hi : nat) (v : string) : bool :=
  (lo <=? validator_length v)%nat && (validator_length v <=? hi)%nat.

(** The class-validator decorators of [CreateUserDto]; [isEmail] is
    validator.js's [isEmail] of [@IsEmail()]. *)
Definition validateCreateUserDto (isEmail : string -> bool) (dto : CreateUserDto) : bool :=
  length_between 2 80 (dto_nombre dto) && length_between 2 80 (dto_apellido dto)
  && length_between 3 40 (dto_username dto)
  && isEmail (dto_email dto) && (validator_length (dto_email dto) <=? 150)%nat
  && length_between 6 50 (dto_password dto).

(** [UpdateUserDto] (its file is not in the sources): every field of
    [CreateUserDto], each optional. *)
Record UpdateUserDto := mkUpdateUserDto {
  upd_nombre : option string;
  upd_apellido : option string;
  upd_username : option string;
  upd_email : option string;
  upd_password : option string
}.

(** The fields of the service object. *)
Record UsersState := mkUsersState {
  users : list User;
  idCounter : Z
}.

(** [private users: User[] = []; private idCounter = 1;] *)
Definition initial : UsersState := mkUsersState [] 1.

(** [private sanitize(user)]: [const { password, ...safe } = user]. *)
Definition sanitize (u : User) : SafeUser :=
  mkSafeUser (id u) (nombre u) (apellido u) (username u) (email u)
             (createdAt u) (updatedAt u) (isActive u).

Definition has_id (i : Z) (u : User) : bool := Z.eqb (id u) i.

(** [`Usuario con id ${id} no existe`]. *)
Definition not_found (i : Z) : HttpException :=
  NotFoundException ("Usuario con id " ++ string_of_Z i ++ " no existe").

(** [const newUser: User = {...}] of [create], given the counter. *)
Definition new_user (counter now : Z) (createUserDto : CreateUserDto) : User :=
  mkUser counter (dto_nombre createUserDto) (dto_apellido createUserDto)
         (dto_username createUserDto) (normalizeEmail (dto_email createUserDto))
         (dto_password createUserDto) now now (Some true).

(** [create(createUserDto)] at time [now]: [id: this.idCounter++] reads
    the counter and increments it, the record is pushed. *)
Definition create (now : Z) (createUserDto : CreateUserDto) : M UsersState SafeUser :=
  s <- get ;;
  let newUser := new_user (idCounter s) now createUserDto in
  put (mkUsersState (users s ++ [newUser]) (idCounter s + 1)) ;;
  ret (sanitize newUser).

(** [findAll()]. *)
Definition findAll : M UsersState (list SafeUser) :=
  s <- get ;;
  ret (map sanitize (users s)).

(** [findOne(id)]. *)
Definition findOne (i : Z) : M UsersState SafeUser :=
  s <- get ;;
  match find (has_id i) (users s) with
  | None => throw (not_found i)
  | Some user => ret (sanitize user)
  end.

Definition has_email (e : string) (u : User) : bool := String.eqb (email u) e.

(** [findByEmail(email)]: the whole record, password included. *)
Definition findByEmail (e : string) : M UsersState (option User) :=
  s <- get ;;
  ret (find (has_email (normalizeEmail e)) (users s)).

(** [findByEmailWithPassword(email)]. *)
Definition findByEmailWithPassword (e : string) : M UsersState (option User) :=
  findByEmail e.

(** The in-place mutation of [update] ([users.service.ts:56-65]). *)
Definition apply_update (dto : UpdateUserDto) (now : Z) (u : User) : User :=
  mkUser (id u)
         (default (nombre u) (upd_nombre dto))
         (default (apellido u) (upd_apellido dto))
         (default (username u) (upd_username dto))
         (match upd_email dto with Some e => normalizeEmail e | None => email u end)
         (default (password u) (upd_password dto))
         (createdAt u) now (isActive u).

(** [update(id, updateUserDto)] at time [now]. *)
Definition update (i : Z) (updateUserDto : UpdateUserDto) (now : Z) : M UsersState SafeUser :=
  s <- get ;;
  match find (has_id i) (users s) with
  | None => throw (not_found i)
  | Some user =>
      put (mkUsersState (update_first (has_id i) (apply_update updateUserDto now) (users s))
                        (idCounter s)) ;;
      ret (sanitize (apply_update updateUserDto now user))
  end.

(** The in-place mutation of [remove] ([users.service.ts:75-76]). *)
Definition deactivate (now : Z) (u : User) : User :=
  mkUser (id u) (nombre u) (apellido u) (username u) (email u) (password u)
         (createdAt u) now (Some false).

(** [{ message: string }]. *)
Record MessageResponse := mkMessageResponse { message : string }.

(** [remove(id)] at time [now]: the logical delete. *)
Definition remove (i : Z) (now : Z) : M UsersState MessageResponse :=
  s <- get ;;
  match find (has_id i) (users s) with
  | None => throw (not_found i)
  | Some _ =>
      put (mkUsersState (update_first (has_id i) (deactivate now) (users s)) (idCounter s)) ;;
      ret (mkMessageResponse ("Usuario " ++ string_of_Z i ++ " desactivado correctamente"))
  end.

(** ** The store invariant and the states the service reaches *)

(** Ids are positive, below the counter and pairwise distinct; stored
    e-mails are normalised; [isActive] is always set. *)
Record wf (s : UsersState) : Prop := {
  wf_counter : 1 <= idCounter s;
  wf_bounded : Forall (fun u => 1 <= id u < idCounter s) (users s);
  wf_nodup : NoDup (map id (users s));
  wf_email : Forall (fun u => normalizeEmail (email u) = email u) (users s);
  wf_active : Forall (fun u => is_Some (isActive u)) (users s)
}.

(** The methods that change the state, with their arguments. *)
Inductive call :=
| CallCreate (now : Z) (dto : CreateUserDto)
| CallUpdate (i : Z) (dto : UpdateUserDto) (now : Z)
| CallRemove (i : Z) (now : Z).

Definition run_call (c : call) (s : UsersState) : UsersState :=
  match c with
  | CallCreate now dto => snd (create now dto s)
  | CallUpdate i dto now => snd (update i dto now s)
  | CallRemove i now => snd (remove i now s)
  end.

(** The states of the service object after any sequence of calls. *)
Inductive reachable : UsersState -> Prop :=
| reachable_initial : reachable initial
| reachable_call c s : reachable s -> reachable (run_call c s).

(** The object after the calls [cs], in order. *)
Definition run_calls (cs : list call) (s : UsersState) : UsersState :=
  fold_left (fun s c => run_call c s) cs s.

(** The number of [create] calls among [cs]. *)
Fixpoint creates (cs : list call) : nat :=
  match cs with
  | [] => O
  | CallCreate _ _ :: cs' => S (creates cs')
  | _ :: cs' => creates cs'
  end.

(** [Number.MAX_SAFE_INTEGER]: up to it a JavaScript number holds
    every integer exactly, so [this.idCounter++] is exact while the
    counter is at most [max_safe_integer]. *)
Definition max_safe_integer : Z := 2 ^ 53 - 1.

(** Two objects that differ at most in the stored passwords: every
    record has the same view and the counters agree. *)
Definition password_blind (s s' : UsersState) : Prop :=
  map sanitize (users s) = map sanitize (users s') /\ idCounter s = idCounter s'.

(** ** Sample data for the witnesses *)

Definition sample_dto : CreateUserDto :=
  mkCreateUserDto "Ana" "Diaz" "anad" "Ana@Test.com" "digest".

Definition sample_update : UpdateUserDto :=
  mkUpdateUserDto (Some "Ana Maria") None None None None.

Definition sample_state : UsersState := snd (create 5 sample_dto initial).

(** ** How each method runs *)

Lemma create_run now dto s :
  create now dto s =
  (Ok (sanitize (new_user (idCounter s) now dto)),
   mkUsersState (users s ++ [new_user (idCounter s) now dto]) (idCounter s + 1)).
Proof. reflexivity. Qed.

Lemma findOne_run i s :
  findOne i s = (match find (has_id i) (users s) with
                 | None => Thrown (not_found i)
                 | Some u => Ok (sanitize u) end, s).
Proof. unfold findOne. run_M. by destruct (find _ _). Qed.

Lemma findByEmail_run e s :
  findByEmail e s = (Ok (find (has_email (normalizeEmail e)) (users s)), s).
Proof. reflexivity. Qed.

Lemma update_run i dto now s :
  update i dto now s =
  match find (has_id i) (users s) with
  | None => (Thrown (not_found i), s)
  | Some u => (Ok (sanitize (apply_update dto now u)),
               mkUsersState (update_first (has_id i) (apply_update dto now) (users s)) (idCounter s))
  end.
Proof. unfold update. run_M. by destruct (find _ _). Qed.

Lemma remove_run i now s :
  remove i now s =
  match find (has_id i) (users s) with
  | None => (Thrown (not_found i), s)
  | Some _ => (Ok (mkMessageResponse ("Usuario " ++ string_of_Z i ++ " desactivado correctamente")),
               mkUsersState (update_first (has_id i) (deactivate now) (users s)) (idCounter s))
  end.
Proof. unfold remove. run_M. by destruct (find _ _). Qed.

(** ** Preservation of the invariant *)

Lemma create_wf now dto s : wf s -> wf (snd (create now dto s)).
Proof.
  intros [Hc Hb Hn He Ha]. rewrite create_run. simpl.
  split; simpl.
  - lia.
  - apply Forall_app; split; [|constructor; [simpl; lia|done]].
    eapply Forall_impl; [exact Hb|]. simpl. lia.
  - rewrite map_app. apply NoDup_app_fresh; [done|].
    intros (u & Hu & Hin)%in_map_iff. rewrite List.Forall_forall in Hb. simpl in Hu.
    specialize (Hb u Hin). lia.
  - apply Forall_app; split; [done|]. constructor; [apply normalizeEmail_idem_eq|done].
  - apply Forall_app; split; [done|]. constructor; [by eexists|done].
Qed.

(** The two in-place mutations keep the id, the invariant's facts on the
    record, and the invariant. *)
Lemma mutation_wf (f : User -> User) i s :
  (forall u, id (f u) = id u) ->
  (forall u, normalizeEmail (email u) = email u -> normalizeEmail (email (f u)) = email (f u)) ->
  (forall u, is_Some (isActive u) -> is_Some (isActive (f u))) ->
  wf s -> wf (mkUsersState (update_first (has_id i) f (users s)) (idCounter s)).
Proof.
  intros Hid Hem Hact [Hc Hb Hn He Ha]. split; simpl.
  - done.
  - apply Forall_update_first; [|done]. intros u. by rewrite Hid.
  - by rewrite map_update_first.
  - by apply Forall_update_first.
  - by apply Forall_update_first.
Qed.

Lemma update_wf i dto now s : wf s -> wf (snd (update i dto now s)).
Proof.
  intros Hwf. rewrite update_run. destruct (find _ _) as [found|]; [|done].
  apply mutation_wf; [done| |done|done].
  intros u Hu. simpl. destruct (upd_email dto); [apply normalizeEmail_idem_eq|done].
Qed.

Lemma remove_wf i now s : wf s -> wf (snd (remove i now s)).
Proof.
  intros Hwf. rewrite remove_run. destruct (find _ _); [|done].
  apply mutation_wf; done.
Qed.

Lemma initial_wf : wf initial.
Proof. split; simpl; by constructor || lia. Qed.

(** Every call keeps the invariant. *)
Lemma run_call_wf c s : wf s -> wf (run_call c s).
Proof. destruct c; [apply create_wf|apply update_wf|apply remove_wf]. Qed.

Lemma run_calls_wf cs s : wf s -> wf (run_calls cs s).
Proof.
  revert s. induction cs as [|c cs IH]; intros s Hs; simpl; [done|].
  by apply IH, run_call_wf.
Qed.

(** Only [create] moves the counter, by one. *)
Lemma run_call_counter c s :
  idCounter (run_call c s) = idCounter s + match c with CallCreate _ _ => 1 | _ => 0 end.
Proof.
  destruct c; unfold run_call; [rewrite create_run|rewrite update_run|rewrite remove_run];
    [simpl; lia|..]; destruct (find _ _); simpl; lia.
Qed.

Lemma run_calls_counter cs s :
  idCounter (run_calls cs s) = idCounter s + Z.of_nat (creates cs).
Proof.
  revert s. induction cs as [|c cs IH]; intros s; simpl; [lia|].
  rewrite IH, run_call_counter. destruct c; simpl; lia.
Qed.

(** ** Lookups *)

Lemma find_has_id_None i s :
  find (has_id i) (users s) = None <-> Forall (fun u => id u <> i) (users s).
Proof.
  rewrite find_None_iff. split; intros H; eapply Forall_impl; try exact H;
    intros u; unfold has_id; destruct (Z.eqb_spec (id u) i); congruence.
Qed.

(** In a well-formed state two stored records with the same id are the
    same record. *)
Lemma wf_id_unique s x y :
  wf s -> In x (users s) -> In y (users s) -> id x = id y -> x = y.
Proof. intros Hwf. apply NoDup_map_inj, wf_nodup, Hwf. Qed.

(** A mutation of the record found under [i] that keeps ids: [findOne]
    then answers the mutated view for [i] and what it answered before
    for every other id. *)
Lemma findOne_update_first i f s u :
  find (has_id i) (users s) = Some u -> (forall x, id (f x) = id x) ->
  fst (findOne i (mkUsersState (update_first (has_id i) f (users s)) (idCounter s))) = Ok (sanitize (f u)) /\
  (forall j, j <> i ->
     fst (findOne j (mkUsersState (update_first (has_id i) f (users s)) (idCounter s))) = fst (findOne j s)).
Proof.
  intros Hu Hf. pose proof (find_Some_In _ _ _ Hu) as [_ Hid].
  unfold has_id in Hid. apply Z.eqb_eq in Hid.
  rewrite !findOne_run. simpl. split.
  - rewrite (find_update_first (has_id i) f (users s) u Hu); [done|].
    unfold has_id. by rewrite Hf, Hid, Z.eqb_refl.
  - intros j Hj. rewrite !findOne_run. simpl. rewrite find_update_first_other; [done| |].
    + intros x. unfold has_id. destruct (Z.eqb_spec (id x) j), (Z.eqb_spec (id x) i); congruence.
    + intros x. unfold has_id. by rewrite Hf.
Qed.

(** The ids of the records after the calls [cs]: those before, then one
    fresh id per [create], counting up from the counter. *)
Lemma run_calls_ids cs s :
  map id (users (run_calls cs s)) =
  (map id (users s) ++ map (fun n => idCounter s + Z.of_nat n) (seq 0 (creates cs)))%list.
Proof.
  revert s. induction cs as [|c cs IH]; intros s; simpl; [by rewrite app_nil_r|].
  rewrite IH, run_call_counter. destruct c as [now dto|i dto now|i now]; unfold run_call.
  - rewrite create_run. cbn [snd users idCounter creates]. rewrite map_app, <- app_assoc. f_equal.
    cbn [seq map app]. f_equal; [simpl; lia|]. rewrite <- seq_shift, map_map. apply map_ext. intros n. lia.
  - rewrite update_run. destruct (find _ _); simpl;
      [rewrite map_update_first by done|]; rewrite Z.add_0_r; done.
  - rewrite remove_run. destruct (find _ _); simpl;
      [rewrite map_update_first by done|]; rewrite Z.add_0_r; done.
Qed.

(** ** Passwords do not flow into views *)

#[export] Instance password_blind_equiv : Equivalence password_blind.
Proof.
  split.
  - by intros s.
  - intros s s' [H1 H2]. by split.
  - intros s1 s2 s3 [H1 H2] [H3 H4]. split; congruence.
Qed.

(** A test that reads only the view of a record gives the same first
    match on lists with the same views. *)
Lemma map_sanitize_cons u u' l l' :
  map sanitize (u :: l) = map sanitize (u' :: l') ->
  sanitize u = sanitize u' /\ map sanitize l = map sanitize l'.
Proof. intros Hm. exact (conj (f_equal (hd (sanitize u)) Hm) (f_equal (@tl _) Hm)). Qed.

Lemma find_view (p : User -> bool) (q : SafeUser -> bool) l l' :
  (forall u, p u = q (sanitize u)) ->
  map sanitize l = map sanitize l' -> option_map sanitize (find p l) = option_map sanitize (find p l').
Proof.
  intros Hpq. revert l'. induction l as [|u l IH]; intros [|u' l'] Hm; cbn [map find] in *; try done.
  apply map_sanitize_cons in Hm as [Hu Hl]. rewrite !Hpq, Hu. destruct (q (sanitize u')); cbn [option_map]; [by f_equal|auto].
Qed.

Lemma update_first_view (p : User -> bool) (q : SafeUser -> bool) (f : User -> User) l l' :
  (forall u, p u = q (sanitize u)) ->
  (forall u u', sanitize u = sanitize u' -> sanitize (f u) = sanitize (f u')) ->
  map sanitize l = map sanitize l' ->
  map sanitize (update_first p f l) = map sanitize (update_first p f l').
Proof.
  intros Hpq Hf. revert l'. induction l as [|u l IH]; intros [|u' l'] Hm; cbn [map update_first] in *; try done.
  apply map_sanitize_cons in Hm as [Hu Hl]. rewrite !Hpq, Hu. destruct (q (sanitize u')); cbn [map].
  - by rewrite (Hf _ _ Hu), Hl.
  - by rewrite Hu, (IH _ Hl).
Qed.

Lemma has_id_view i u : has_id i u = Z.eqb (safe_id (sanitize u)) i.
Proof. reflexivity. Qed.

(** The view after [update] or [remove] is a function of the view
    before. *)
Ltac view_fields := intros [] []; cbv [sanitize apply_update deactivate]; simpl; intros [=]; by subst.

Lemma apply_update_view dto now u u' :
  sanitize u = sanitize u' -> sanitize (apply_update dto now u) = sanitize (apply_update dto now u').
Proof. revert u u'. view_fields. Qed.

Lemma deactivate_view now u u' :
  sanitize u = sanitize u' -> sanitize (deactivate now u) = sanitize (deactivate now u').
Proof. revert u u'. view_fields. Qed.

Lemma find_has_id_view i s s' :
  password_blind s s' ->
  option_map sanitize (find (has_id i) (users s)) = option_map sanitize (find (has_id i) (users s')).
Proof. intros [Hm _]. exact (find_view _ (fun v => Z.eqb (safe_id v) i) _ _ (has_id_view i) Hm). Qed.

Lemma run_call_blind c s s' : password_blind s s' -> password_blind (run_call c s) (run_call c s').
Proof.
  intros Hb. pose proof (find_has_id_view match c with CallUpdate i _ _ | CallRemove i _ => i | _ => 0 end _ _ Hb) as Hv.
  destruct Hb as [Hm Hc]. destruct c as [now dto|i dto now|i now]; unfold run_call.
  - rewrite !create_run. split; simpl; [|by rewrite Hc]. by rewrite !map_app, Hm, Hc.
  - rewrite !update_run.
    destruct (find _ (users s)), (find _ (users s')); simpl in Hv; try discriminate; split; try done.
    simpl. apply (update_first_view _ (fun v => Z.eqb (safe_id v) i) _ _ _ (has_id_view i)); [apply apply_update_view|exact Hm].
  - rewrite !remove_run.
    destruct (find _ (users s)), (find _ (users s')); simpl in Hv; try discriminate; split; try done.
    simpl. apply (update_first_view _ (fun v => Z.eqb (safe_id v) i) _ _ _ (has_id_view i)); [apply deactivate_view|exact Hm].
Qed.

(** ** Theorems *)

(** C4: every state the service object reaches from its initial state
    by [create], [update] and [remove] calls satisfies the store
    invariant [wf]: ids positive, below [idCounter] and distinct,
    e-mails normalised, [isActive] set. *)
Theorem reachable_wf s : reachable s -> wf s.
Proof. induction 1 as [|c s _ IH]; [apply initial_wf|by apply run_call_wf]. Qed.

(** C5: the view [create] returns is what [findOne] then returns for
    its id, in a well-formed state. *)
Theorem create_findOne now dto s v s' :
  wf s -> create now dto s = (Ok v, s') -> findOne (safe_id v) s' = (Ok v, s').
Proof.
  intros Hwf. rewrite create_run. intros [= <- <-]. rewrite findOne_run. simpl.
  rewrite find_app.
  replace (find (has_id (idCounter s)) (users s)) with (@None User).
  - simpl. unfold has_id. simpl. by rewrite Z.eqb_refl.
  - symmetry. apply find_has_id_None.
    eapply Forall_impl; [apply (wf_bounded _ Hwf)|]. simpl. lia.
Qed.

(** C6: after [create], [findByEmail] with any spelling of the address
    that normalises to the same string returns the created record,
    password included, when no earlier record had that address. *)
Theorem create_findByEmail now dto s e :
  find (has_email (normalizeEmail (dto_email dto))) (users s) = None ->
  normalizeEmail e = normalizeEmail (dto_email dto) ->
  findByEmail e (snd (create now dto s)) =
  (Ok (Some (new_user (idCounter s) now dto)), snd (create now dto s)).
Proof.
  intros Hnone He. rewrite findByEmail_run, create_run. simpl.
  rewrite find_app, He, Hnone. simpl. unfold has_email. simpl.
  by rewrite String.eqb_refl.
Qed.

(** C7: [findOne], [update] and [remove] throw [NotFoundException]
    with the message [Usuario con id <id> no existe], and leave the state
    as it was, exactly when no stored record has the id. *)
Theorem not_found_iff i dto now s :
  (findOne i s = (Thrown (not_found i), s) <-> Forall (fun u => id u <> i) (users s)) /\
  (update i dto now s = (Thrown (not_found i), s) <-> Forall (fun u => id u <> i) (users s)) /\
  (remove i now s = (Thrown (not_found i), s) <-> Forall (fun u => id u <> i) (users s)).
Proof.
  rewrite findOne_run, update_run, remove_run, <- find_has_id_None.
  split_and!; (destruct (find _ _); split; [intros [=] | by intros | done | done]).
Qed.

(** C8: [update] changes the record with the id and no other: [findOne]
    returns the updated view for the id, the same result as before for
    every other id, and the counter is kept; the view carries the id
    and the time of the update. *)
Theorem update_findOne i dto now s v s' :
  update i dto now s = (Ok v, s') ->
  fst (findOne i s') = Ok v /\
  (forall j, j <> i -> fst (findOne j s') = fst (findOne j s)) /\
  idCounter s' = idCounter s /\ safe_id v = i /\ safe_updatedAt v = now.
Proof.
  rewrite update_run. destruct (find (has_id i) (users s)) as [u|] eqn:Hu; [|done].
  intros [= <- <-]. pose proof (find_Some_In _ _ _ Hu) as [_ Hid].
  unfold has_id in Hid. apply Z.eqb_eq in Hid.
  destruct (findOne_update_first i (apply_update dto now) s u Hu) as [H1 H2]; [done|].
  split_and!; [exact H1|exact H2|done|done|done].
Qed.

(** C9: the stored passwords never reach a response: on two objects
    that differ only in the stored passwords, [findAll], [findOne],
    [update], [remove] and [create] answer the same (values and
    exceptions alike), and every call leaves two objects that again
    differ only in the passwords, so no sequence of calls reveals them. *)
Theorem responses_password_free s s' i udto now dto :
  password_blind s s' ->
  fst (findAll s) = fst (findAll s') /\
  fst (findOne i s) = fst (findOne i s') /\
  fst (update i udto now s) = fst (update i udto now s') /\
  fst (remove i now s) = fst (remove i now s') /\
  fst (create now dto s) = fst (create now dto s') /\
  (forall c, password_blind (run_call c s) (run_call c s')).
Proof.
  intros Hb. pose proof (find_has_id_view i _ _ Hb) as Hv. pose proof Hb as [Hm Hc].
  split_and!.
  - simpl. by rewrite Hm.
  - rewrite !findOne_run. cbn [fst].
    destruct (find _ (users s)), (find _ (users s')); cbn [option_map] in Hv; congruence.
  - rewrite !update_run.
    destruct (find _ (users s)) as [u|], (find _ (users s')) as [u'|]; cbn [option_map fst] in *;
      [|congruence|congruence|reflexivity].
    assert (Hu : sanitize u = sanitize u') by congruence.
    by rewrite (apply_update_view udto now u u' Hu).
  - rewrite !remove_run.
    by destruct (find _ (users s)), (find _ (users s')); cbn [option_map] in Hv; try discriminate.
  - rewrite !create_run. cbn [fst]. by rewrite Hc.
  - intros c. by apply run_call_blind.
Qed.

(** C27: the counter after any sequence of calls is one more than the
    number of [create] calls, and every id lies between 1 and that
    number; so while fewer than [2^53] users are created, every id and
    every value of [this.idCounter] is an integer a JavaScript number
    holds exactly, and the unbounded integers of the model are the
    numbers of the code. *)
Theorem ids_safe_integers cs :
  Z.of_nat (creates cs) <= max_safe_integer ->
  idCounter (run_calls cs initial) = 1 + Z.of_nat (creates cs) /\
  Forall (fun u => 1 <= id u <= max_safe_integer) (users (run_calls cs initial)).
Proof.
  intros Hn. rewrite run_calls_counter. split; [simpl; lia|].
  pose proof (wf_bounded _ (run_calls_wf cs _ initial_wf)) as Hb.
  rewrite run_calls_counter in Hb. simpl in Hb.
  eapply Forall_impl; [exact Hb|]. simpl. intros u Hu. lia.
Qed.

(** C31: [remove] is a logical delete of the record with the id and no
    other: the record is still found by [findOne], its view now inactive
    ([isActive: false]) and stamped with the time of the call; every
    other id answers as before, the counter is kept, and the answer is
    [{ message: `Usuario ${id} desactivado correctamente` }]. *)
Theorem remove_findOne i now s m s' :
  remove i now s = (Ok m, s') ->
  (exists u, fst (findOne i s) = Ok (sanitize u) /\
             fst (findOne i s') = Ok (sanitize (deactivate now u)) /\
             safe_isActive (sanitize (deactivate now u)) = Some false /\
             safe_updatedAt (sanitize (deactivate now u)) = now) /\
  (forall j, j <> i -> fst (findOne j s') = fst (findOne j s)) /\
  idCounter s' = idCounter s /\
  message m = ("Usuario " ++ string_of_Z i ++ " desactivado correctamente")%string.
Proof.
  rewrite remove_run. destruct (find (has_id i) (users s)) as [u|] eqn:Hu; [|done].
  intros [= <- <-].
  destruct (findOne_update_first i (deactivate now) s u Hu) as [H1 H2]; [done|].
  split_and!; [|exact H2|done|done]. exists u. rewrite findOne_run, Hu. done.
Qed.

(** C32: records are never deleted and ids never reused: after any
    sequence of calls from the initial state, [findAll] lists one view
    per [create] call, in the order of creation, with the ids
    [1, 2, ..., n]. *)
Theorem findAll_ids cs :
  fst (findAll (run_calls cs initial)) =
  Ok (map sanitize (users (run_calls cs initial))) /\
  map safe_id (map sanitize (users (run_calls cs initial))) = map (fun n => Z.of_nat (S n)) (seq 0 (creates cs)).
Proof.
  split; [reflexivity|]. rewrite map_map. change (map (fun u => safe_id (sanitize u)) ?l) with (map id l).
  rewrite run_calls_ids. simpl. apply map_ext. intros n. lia.
Qed.

(** ** Witnesses *)

Lemma reachable_wf_witness :
  reachable (run_call (CallCreate 5 sample_dto) initial) /\
  wf (run_call (CallCreate 5 sample_dto) initial).
Proof.
  assert (Hr : reachable (run_call (CallCreate 5 sample_dto) initial))
    by (apply reachable_call, reachable_initial).
  split; [exact Hr|]. apply (reachable_wf _ Hr).
Defined.

Lemma create_findOne_witness :
  wf sample_state /\
  create 7 sample_dto sample_state = (Ok (sanitize (new_user 2 7 sample_dto)), snd (create 7 sample_dto sample_state)) /\
  findOne 2 (snd (create 7 sample_dto sample_state)) =
    (Ok (sanitize (new_user 2 7 sample_dto)), snd (create 7 sample_dto sample_state)).
Proof.
  assert (Hw : wf sample_state) by exact (create_wf 5 sample_dto initial initial_wf).
  assert (Hc : create 7 sample_dto sample_state =
               (Ok (sanitize (new_user 2 7 sample_dto)), snd (create 7 sample_dto sample_state)))
    by reflexivity.
  split_and!; [exact Hw|exact Hc|]. exact (create_findOne _ _ _ _ _ Hw Hc).
Defined.

Lemma create_findByEmail_witness :
  find (has_email (normalizeEmail "Ana@Test.com")) (users initial) = None /\
  normalizeEmail " ANA@TEST.COM " = normalizeEmail "Ana@Test.com" /\
  findByEmail " ANA@TEST.COM " sample_state = (Ok (Some (new_user 1 5 sample_dto)), sample_state).
Proof.
  assert (H1 : find (has_email (normalizeEmail "Ana@Test.com")) (users initial) = None)
    by reflexivity.
  assert (H2 : normalizeEmail " ANA@TEST.COM " = normalizeEmail "Ana@Test.com") by (vm_compute; reflexivity).
  split_and!; [exact H1|exact H2|]. exact (create_findByEmail 5 sample_dto initial _ H1 H2).
Defined.

Lemma update_findOne_witness :
  update 1 sample_update 9 sample_state =
    (Ok (sanitize (apply_update sample_update 9 (new_user 1 5 sample_dto))),
     snd (update 1 sample_update 9 sample_state)) /\
  fst (findOne 1 (snd (update 1 sample_update 9 sample_state))) =
    Ok (sanitize (apply_update sample_update 9 (new_user 1 5 sample_dto))).
Proof.
  assert (Hu : update 1 sample_update 9 sample_state =
    (Ok (sanitize (apply_update sample_update 9 (new_user 1 5 sample_dto))),
     snd (update 1 sample_update 9 sample_state))) by reflexivity.
  split; [exact Hu|]. exact (proj1 (update_findOne _ _ _ _ _ _ Hu)).
Defined.

Lemma ids_safe_integers_witness :
  idCounter (run_calls [CallCreate 5 sample_dto; CallRemove 1 9] initial) = 2 /\
  Forall (fun u => 1 <= id u <= max_safe_integer)
    (users (run_calls [CallCreate 5 sample_dto; CallRemove 1 9] initial)).
Proof. apply (ids_safe_integers [CallCreate 5 sample_dto; CallRemove 1 9]). vm_compute. discriminate. Defined.

Lemma responses_password_free_witness :
  let s' := snd (create 5 (mkCreateUserDto "Ana" "Diaz" "anad" "Ana@Test.com" "other") initial) in
  password_blind sample_state s' /\
  fst (findAll sample_state) = fst (findAll s') /\
  fst (findOne 1 sample_state) = fst (findOne 1 s') /\
  fst (update 1 sample_update 9 sample_state) = fst (update 1 sample_update 9 s') /\
  fst (remove 1 9 sample_state) = fst (remove 1 9 s') /\
  fst (create 9 sample_dto sample_state) = fst (create 9 sample_dto s') /\
  (forall c, password_blind (run_call c sample_state) (run_call c s')).
Proof.
  intros s'. assert (Hb : password_blind sample_state s') by (split; reflexivity).
  split; [exact Hb|]. exact (responses_password_free sample_state s' 1 sample_update 9 sample_dto Hb).
Defined.

Lemma remove_findOne_witness :
  exists m s', remove 1 9 sample_state = (Ok m, s') /\
  (exists u, fst (findOne 1 sample_state) = Ok (sanitize u) /\
             fst (findOne 1 s') = Ok (sanitize (deactivate 9 u)) /\
             safe_isActive (sanitize (deactivate 9 u)) = Some false /\
             safe_updatedAt (sanitize (deactivate 9 u)) = 9) /\
  (forall j, j <> 1 -> fst (findOne j s') = fst (findOne j sample_state)) /\
  idCounter s' = idCounter sample_state /\
  message m = ("Usuario " ++ string_of_Z 1 ++ " desactivado correctamente")%string.
Proof.
  eexists _, _. split; [vm_compute; reflexivity|]. eapply remove_findOne. vm_compute. reflexivity.
Defined.

End UsersService.
