(* ===== verification/UsersSpec.v ===== *)
(** * UsersSpec: the abstract store that [UsersService] implements

    [UsersService] keeps its records in an array searched with
    [users.find(u => u.id === id)] and mutated in place.  Its contract,
    as the rest of the program relies on it, is a finite map from ids to
    records and the next id to hand out: [create] inserts the record
    under the next id, [findOne] looks an id up, [update] and [remove]
    replace the record under an id.  [abs] reads the array as such a map
    (the first record with an id is the one [find] answers; stdpp's
    [list_to_map] keeps the first binding too).  Theorems: every method
    commutes with [abs] (refinement of the abstract machine), and the
    results of the methods are the abstract machine's. *)

From stdpp Require Import base decidable strings list gmap.
From Stdlib Require Import String ZArith Lia Bool.
From S2P Require Import Prelude JsString Users.
Import UsersService.

Open Scope Z_scope.

Module UsersSpec.

(** ** The abstract machine *)

Record spec_state := mkSpecState {
  table : gmap Z User;
  next_id : Z
}.

Definition spec_initial : spec_state := mkSpecState ∅ 1.

(** The map an array of records stands for. *)
Definition user_table (l : list User) : gmap Z User :=
  list_to_map (map (fun u => (id u, u)) l).

Definition abs (s : UsersState) : spec_state := mkSpecState (user_table (users s)) (idCounter s).

Definition spec_create (now : Z) (dto : CreateUserDto) (a : spec_state) : SafeUser * spec_state :=
  let u := new_user (next_id a) now dto in
  (sanitize u, mkSpecState (<[next_id a := u]> (table a)) (next_id a + 1)).

Definition spec_findOne (i : Z) (a : spec_state) : outcome SafeUser :=
  match table a !! i with
  | Some u => Ok (sanitize u)
  | None => Thrown (not_found i)
  end.

(** Replace the record under [i] by its image under [f]. *)
Definition spec_mutate (i : Z) (f : User -> User) (a : spec_state) : option (User * spec_state) :=
  match table a !! i with
  | Some u => Some (f u, mkSpecState (<[i := f u]> (table a)) (next_id a))
  | None => None
  end.

Definition spec_call (c : call) (a : spec_state) : spec_state :=
  match c with
  | CallCreate now dto => snd (spec_create now dto a)
  | CallUpdate i dto now => from_option snd a (spec_mutate i (apply_update dto now) a)
  | CallRemove i now => from_option snd a (spec_mutate i (deactivate now) a)
  end.

(** ** The table of an array *)

Lemma lookup_user_table i l : user_table l !! i = find (has_id i) l.
Proof.
  induction l as [|u l IH]; [done|]. unfold user_table in *. simpl.
  rewrite lookup_insert. unfold has_id.
  destruct (decide (id u = i)) as [->|Hne]; [by rewrite Z.eqb_refl|].
  rewrite IH. by destruct (Z.eqb_spec (id u) i).
Qed.

Lemma user_table_snoc l u :
  ~ In (id u) (map id l) -> user_table (l ++ [u])%list = <[id u := u]> (user_table l).
Proof.
  induction l as [|x l IH]; [done|]. unfold user_table in *. simpl.
  intros Hnin. rewrite IH by tauto. rewrite insert_insert_ne; [done|]. tauto.
Qed.

Lemma user_table_update_first i f l u :
  find (has_id i) l = Some u -> (forall x, id (f x) = id x) ->
  user_table (update_first (has_id i) f l) = <[i := f u]> (user_table l).
Proof.
  intros Hf Hid. induction l as [|x l IH]; [done|]. unfold user_table in *. simpl in *.
  unfold has_id in *. destruct (Z.eqb_spec (id x) i) as [<-|Hne].
  - injection Hf as <-. simpl. by rewrite Hid, insert_insert_eq.
  - simpl. rewrite IH by done. by rewrite insert_insert_ne.
Qed.

Lemma spec_mutate_abs i f s :
  (forall x, id (f x) = id x) ->
  spec_mutate i f (abs s) =
  option_map (fun u => (f u, abs (mkUsersState (update_first (has_id i) f (users s)) (idCounter s))))
             (find (has_id i) (users s)).
Proof.
  intros Hid. unfold spec_mutate, abs. simpl. rewrite lookup_user_table.
  destruct (find (has_id i) (users s)) as [u|] eqn:Hf; [|done]. simpl.
  by rewrite (user_table_update_first _ _ _ u).
Qed.

(** The abstraction of the object after a call is what the abstract
    machine's call leaves. *)
Lemma run_call_abs c s : wf s -> abs (run_call c s) = spec_call c (abs s).
Proof.
  intros Hwf. destruct c as [now dto|i dto now|i now]; unfold run_call, spec_call.
  - rewrite create_run. unfold abs, spec_create. simpl. f_equal.
    apply (user_table_snoc _ (new_user (idCounter s) now dto)).
    intros (u & Hu & Hin)%in_map_iff. simpl in Hu.
    pose proof (proj1 (List.Forall_forall _ _) (wf_bounded _ Hwf) u Hin). simpl in *. lia.
  - rewrite update_run, spec_mutate_abs by done. by destruct (find _ _).
  - rewrite remove_run, spec_mutate_abs by done. by destruct (find _ _).
Qed.

(** ** Theorems *)

(** C23: every call of [create], [update] and [remove] on a well-formed
    object leaves the object whose abstraction is what the abstract
    machine's call leaves: the array-and-counter implementation refines
    the map-and-next-id specification. *)
Theorem abs_run_call c s : wf s -> abs (run_call c s) = spec_call c (abs s).
Proof. exact (run_call_abs c s). Qed.

(** C24: the results of the methods are those of the abstract machine:
    [findOne] answers the lookup of the id, [update] and [remove] answer
    from the record under the id or throw [NotFoundException], [create]
    answers the view of the record it inserts under the next id. *)
Theorem results_refine i dto udto now s :
  fst (findOne i s) = spec_findOne i (abs s) /\
  fst (update i udto now s) =
    match spec_mutate i (apply_update udto now) (abs s) with
    | Some (u, _) => Ok (sanitize u) | None => Thrown (not_found i) end /\
  fst (remove i now s) =
    match spec_mutate i (deactivate now) (abs s) with
    | Some _ => Ok (mkMessageResponse ("Usuario " ++ string_of_Z i ++ " desactivado correctamente"))%string
    | None => Thrown (not_found i) end /\
  fst (create now dto s) = Ok (fst (spec_create now dto (abs s))).
Proof.
  rewrite findOne_run, update_run, remove_run, !spec_mutate_abs by done.
  unfold spec_findOne, abs. simpl. rewrite lookup_user_table.
  split_and!; try reflexivity; by destruct (find _ _).
Qed.

(** ** Witnesses *)

Lemma abs_run_call_witness :
  wf sample_state /\
  abs (run_call (CallRemove 1 9) sample_state) = spec_call (CallRemove 1 9) (abs sample_state).
Proof.
  assert (Hw : wf sample_state) by exact (create_wf 5 sample_dto initial initial_wf).
  split; [exact Hw|]. exact (abs_run_call (CallRemove 1 9) _ Hw).
Defined.

End UsersSpec.
