(* ===== verification/Auth.v ===== *)
(** * Auth: [AuthService] ([src/src/auth/auth.service.ts])

    [register], [login] and [getProfile], composed from the methods of
    [UsersService] and the bcrypt and JWT interfaces as the source
    composes them.  The service has no field of its own: its methods are
    programs of [M UsersState], run on the [UsersService] object it is
    given.  The random salt of [bcrypt.hash] and the clock of
    [new Date()] / [Date.now()] are arguments.  Theorems: a second
    registration of an address (in any case and padding) is refused; the
    states reached through the controller keep e-mails unique; a
    registered user logs in with the password and gets a token for its
    id; a wrong password and an unknown address fail alike; a
    deactivated user cannot log in; the length bound of the DTO does not
    keep passwords within what bcrypt reads. *)

From stdpp Require Import base decidable strings list.
From Stdlib Require Import String ZArith Lia Bool.
From S2P Require Import Prelude JsString Crypto Users.
Import UsersService.

Open Scope string_scope.
Open Scope Z_scope.

Module AuthService.

(** [RegisterDto] and [LoginDto] (their files are not in the sources):
    the fields the service reads. *)
Record RegisterDto := mkRegisterDto {
  reg_nombre : string;
  reg_apellido : string;
  reg_username : string;
  reg_email : string;
  reg_password : string
}.

Record LoginDto := mkLoginDto {
  login_email : string;
  login_password : string
}.

(** The options of [JwtModule.register] (the module file is not in the
    sources): the signing secret and [signOptions.expiresIn] in seconds,
    if any. *)
Record JwtModuleOptions := mkJwtModuleOptions {
  jwt_secret : string;
  jwt_expiresIn : option Z
}.

(** [{ message, user }] of [register] and [{ access_token, user }] of
    [login]. *)
Record RegisterResponse := mkRegisterResponse {
  register_message : string;
  register_user : SafeUser
}.

Record LoginResponse := mkLoginResponse {
  access_token : string;
  login_user : SafeUser
}.

Definition email_taken : HttpException :=
  ConflictException "El email ya está registrado".

Definition invalid_credentials : HttpException :=
  UnauthorizedException "Credenciales inválidas".

Definition inactive_user : HttpException :=
  UnauthorizedException "Usuario inactivo".

(** Sample data for the witnesses: the scenario of the spec (section 8). *)
Definition ana_register : RegisterDto :=
  mkRegisterDto "Ana" "Diaz" "anad" "Ana@Test.com" "secret1".

Definition sample_options : JwtModuleOptions := mkJwtModuleOptions "k" (Some 3600).

Section WithLibraries.
Context `{Bcrypt} `{JwtCodec} (options : JwtModuleOptions).

(** The claims [jwtService.signAsync(payload)] signs at time [now]
    (milliseconds): [iat] is [Math.floor(Date.now() / 1000)] and [exp]
    is [iat + expiresIn] when the module sets [expiresIn]. *)
Definition claims_at (payload : JwtPayload) (now : Z) : JwtClaims :=
  let issuedAt := now / 1000 in
  mkJwtClaims payload issuedAt (option_map (fun e => issuedAt + e) (jwt_expiresIn options)).

(** The object [{ ...registerDto, email, password: hashedPassword }]
    passed to [UsersService.create] ([auth.service.ts:39-43]). *)
Definition createUserDto_of (registerDto : RegisterDto) (email hashedPassword : string)
  : CreateUserDto :=
  mkCreateUserDto (reg_nombre registerDto) (reg_apellido registerDto)
                  (reg_username registerDto) email hashedPassword.

(** [register(registerDto)]: [salt] is the salt [bcrypt.hash] draws,
    [now] the time [UsersService.create] reads. *)
Definition register (registerDto : RegisterDto) (salt : string) (now : Z)
  : M UsersState RegisterResponse :=
  let email := normalizeEmail (reg_email registerDto) in
  existingUser <- findByEmail email ;;
  match existingUser with
  | Some _ => throw email_taken
  | None =>
      let hashedPassword := bcrypt_hash (reg_password registerDto) 10 salt in
      userCreated <- create now (createUserDto_of registerDto email hashedPassword) ;;
      ret (mkRegisterResponse "Usuario registrado correctamente" userCreated)
  end.

(** The payload of the token ([auth.service.ts:80-85]). *)
Definition payload_of (user : User) : JwtPayload :=
  mkJwtPayload (id user) (email user) (nombre user) (username user).

(** [login(loginDto)] at time [now]. *)
Definition login (loginDto : LoginDto) (now : Z) : M UsersState LoginResponse :=
  let email := normalizeEmail (login_email loginDto) in
  user <- findByEmailWithPassword email ;;
  match user with
  | None => throw invalid_credentials
  | Some user =>
      match isActive user with
      | Some false => throw inactive_user
      | _ =>
          let passwordOk := bcrypt_compare (login_password loginDto) (password user) in
          if negb passwordOk then throw invalid_credentials
          else
            let accessToken := jwt_sign (jwt_secret options) (claims_at (payload_of user) now) in
            ret (mkLoginResponse accessToken (sanitize user))
      end
  end.

(** [getProfile(userId)]. *)
Definition getProfile (userId : Z) : M UsersState SafeUser := findOne userId.

(** ** The service behind the controller

    [AuthController] ([src/src/auth/auth.controller.ts]) exposes
    [register] and [login]; [getProfile] reads.  The states of the
    [UsersService] object reachable through these calls: *)
Inductive auth_call :=
| CallRegister (dto : RegisterDto) (salt : string) (now : Z)
| CallLogin (dto : LoginDto) (now : Z)
| CallGetProfile (userId : Z).

Definition run_auth_call (c : auth_call) (s : UsersState) : UsersState :=
  match c with
  | CallRegister dto salt now => snd (register dto salt now s)
  | CallLogin dto now => snd (login dto now s)
  | CallGetProfile i => snd (getProfile i s)
  end.

Inductive auth_reachable : UsersState -> Prop :=
| auth_reachable_initial : auth_reachable initial
| auth_reachable_call c s : auth_reachable s -> auth_reachable (run_auth_call c s).

(** No two stored records share an e-mail. *)
Definition unique_emails (s : UsersState) : Prop := NoDup (map email (users s)).

(** ** How each method runs *)

Lemma register_run dto salt now s :
  register dto salt now s =
  match find (has_email (normalizeEmail (reg_email dto))) (users s) with
  | Some _ => (Thrown email_taken, s)
  | None =>
      let cdto := createUserDto_of dto (normalizeEmail (reg_email dto))
                    (bcrypt_hash (reg_password dto) 10 salt) in
      (Ok (mkRegisterResponse "Usuario registrado correctamente"
             (sanitize (new_user (idCounter s) now cdto))),
       snd (create now cdto s))
  end.
Proof.
  unfold register. rewrite (bind_Ok _ _ _ _ _ (findByEmail_run _ s)).
  rewrite normalizeEmail_idem_eq. by destruct (find _ _).
Qed.

Lemma login_run dto now s :
  login dto now s =
  (match find (has_email (normalizeEmail (login_email dto))) (users s) with
   | None => Thrown invalid_credentials
   | Some user =>
       match isActive user with
       | Some false => Thrown inactive_user
       | _ =>
           if bcrypt_compare (login_password dto) (password user)
           then Ok (mkLoginResponse (jwt_sign (jwt_secret options)
                                       (claims_at (payload_of user) now)) (sanitize user))
           else Thrown invalid_credentials
       end
   end, s).
Proof.
  unfold login, findByEmailWithPassword. rewrite (bind_Ok _ _ _ _ _ (findByEmail_run _ s)).
  rewrite normalizeEmail_idem_eq.
  destruct (find _ _) as [u|]; [|done].
  destruct (isActive u) as [[]|]; run_M; by destruct (bcrypt_compare (login_password dto) (password u)).
Qed.

Lemma run_auth_call_state c s :
  run_auth_call c s = s \/
  exists dto salt now, run_auth_call c s = snd (register dto salt now s).
Proof.
  destruct c as [dto salt now|dto now|i]; simpl.
  - right. eauto.
  - left. by rewrite login_run.
  - left. unfold getProfile. by rewrite findOne_run.
Qed.

(** The inversion of a successful [register]. *)
Lemma register_Ok dto salt now s r s1 :
  register dto salt now s = (Ok r, s1) ->
  let cdto := createUserDto_of dto (normalizeEmail (reg_email dto))
                (bcrypt_hash (reg_password dto) 10 salt) in
  find (has_email (normalizeEmail (reg_email dto))) (users s) = None /\
  s1 = mkUsersState (users s ++ [new_user (idCounter s) now cdto]) (idCounter s + 1) /\
  r = mkRegisterResponse "Usuario registrado correctamente"
        (sanitize (new_user (idCounter s) now cdto)).
Proof.
  rewrite register_run. destruct (find _ _) eqn:Hf; [done|].
  cbv zeta. rewrite create_run. intros [= <- <-]. done.
Qed.

(** After a successful [register], the address (in any spelling that
    normalises to it) finds the new record. *)
Lemma register_Ok_find dto salt now s r s1 e :
  register dto salt now s = (Ok r, s1) ->
  normalizeEmail e = normalizeEmail (reg_email dto) ->
  find (has_email (normalizeEmail e)) (users s1) =
  Some (new_user (idCounter s) now
          (createUserDto_of dto (normalizeEmail (reg_email dto))
             (bcrypt_hash (reg_password dto) 10 salt))).
Proof.
  intros Hr He. destruct (register_Ok _ _ _ _ _ _ Hr) as (Hf & -> & _). simpl.
  rewrite find_app, He, Hf. simpl. unfold has_email. simpl.
  by rewrite normalizeEmail_idem_eq, String.eqb_refl.
Qed.

Lemma register_preserves dto salt now s :
  wf s -> unique_emails s ->
  wf (snd (register dto salt now s)) /\ unique_emails (snd (register dto salt now s)).
Proof.
  intros Hwf Hu. destruct (register dto salt now s) as [[r|e] s1] eqn:Hr; simpl.
  - pose proof Hr as Hr'. apply register_Ok in Hr as (Hf & -> & _). split.
    + exact (create_wf now _ s Hwf).
    + unfold unique_emails. simpl. rewrite map_app. apply NoDup_app_fresh; [done|].
      intros (u & Hue & Hin)%in_map_iff. apply find_None_iff in Hf.
      rewrite List.Forall_forall in Hf. specialize (Hf u Hin). unfold has_email in Hf.
      simpl in Hue. rewrite normalizeEmail_idem_eq in Hue. rewrite Hue, String.eqb_refl in Hf.
      discriminate.
  - rewrite register_run in Hr. destruct (find _ _); [|done]. by injection Hr as _ <-.
Qed.

(** ** Theorems *)

(** C1: once an address is registered, registering it again (in any
    case and with any surrounding white space) throws
    [ConflictException("El email ya está registrado")] and leaves the
    store as it was. *)
Theorem register_twice_conflict dto1 salt1 t1 dto2 salt2 t2 s r s1 :
  register dto1 salt1 t1 s = (Ok r, s1) ->
  normalizeEmail (reg_email dto2) = normalizeEmail (reg_email dto1) ->
  register dto2 salt2 t2 s1 = (Thrown email_taken, s1).
Proof.
  intros Hr He. rewrite register_run. by rewrite (register_Ok_find _ _ _ _ _ _ _ Hr He).
Qed.

(** C2: in every state reachable through the controller's calls
    ([register], [login], [getProfile]) the store invariant holds and no
    two records share an e-mail. *)
Theorem auth_reachable_unique_emails s : auth_reachable s -> wf s /\ unique_emails s.
Proof.
  induction 1 as [|c s _ [Hwf Hu]].
  - split; [apply initial_wf|constructor].
  - destruct (run_auth_call_state c s) as [->|(dto & salt & now & ->)]; [done|].
    by apply register_preserves.
Qed.

(** C3: after a successful registration, [login] with the registered
    password and any spelling of the address succeeds without changing
    the store, returns the registered view, and its token decodes under
    the module's secret to claims whose subject is the new user's id. *)
Theorem login_after_register dto salt t s r s1 e t' :
  register dto salt t s = (Ok r, s1) ->
  normalizeEmail e = normalizeEmail (reg_email dto) ->
  exists tok,
    login (mkLoginDto e (reg_password dto)) t' s1 = (Ok (mkLoginResponse tok (register_user r)), s1) /\
    jwt_decode (jwt_secret options) tok =
      Some (claims_at (mkJwtPayload (safe_id (register_user r)) (safe_email (register_user r))
                                    (reg_nombre dto) (reg_username dto)) t').
Proof.
  intros Hr He. pose proof (register_Ok_find _ _ _ _ _ _ _ Hr He) as Hfind.
  destruct (register_Ok _ _ _ _ _ _ Hr) as (_ & _ & ->).
  eexists. rewrite login_run. simpl. rewrite Hfind. simpl.
  rewrite bcrypt_compare_hash, String.eqb_refl. split; [reflexivity|].
  apply jwt_decode_sign.
Qed.

(** C10: a wrong password for an active account and an address that is
    not registered fail with the same exception,
    [UnauthorizedException("Credenciales inválidas")], and change
    nothing: the answer does not tell whether the address exists. *)
Theorem login_failures_indistinguishable s e p u now e' p' now' :
  find (has_email (normalizeEmail e)) (users s) = Some u ->
  isActive u <> Some false ->
  bcrypt_compare p (password u) = false ->
  find (has_email (normalizeEmail e')) (users s) = None ->
  login (mkLoginDto e p) now s = (Thrown invalid_credentials, s) /\
  login (mkLoginDto e' p') now' s = (Thrown invalid_credentials, s).
Proof.
  intros Hu Hact Hpw Hnone. rewrite !login_run. simpl. rewrite Hu, Hnone, Hpw.
  split; [|done]. by destruct (isActive u) as [[]|].
Qed.

(** C11: after [UsersService.remove] deactivates a user, [login] with
    its address fails with [UnauthorizedException("Usuario inactivo")]
    whatever the password, the right one included. *)
Theorem login_after_remove s e u now m s' p t :
  wf s ->
  find (has_email (normalizeEmail e)) (users s) = Some u ->
  remove (id u) now s = (Ok m, s') ->
  login (mkLoginDto e p) t s' = (Thrown inactive_user, s').
Proof.
  intros Hwf Hu. rewrite remove_run.
  destruct (find (has_id (id u)) (users s)) eqn:Hid; [|done]. intros [= <- <-].
  rewrite login_run. simpl.
  pose proof (find_Some_In _ _ _ Hu) as [Hin Hem].
  rewrite (find_update_first_same _ _ _ _ u Hu); [done| | |done].
  - unfold has_id. apply Z.eqb_refl.
  - intros x Hx Hxid. unfold has_id in Hxid. apply Z.eqb_eq in Hxid.
    by apply (wf_id_unique s).
Qed.

(** C12: [register] stores one new record, at the end of the array,
    with the next id, the normalised address and the bcrypt digest of
    the password in place of the password, and returns its view. *)
Theorem register_stores_hash dto salt now s r s1 :
  register dto salt now s = (Ok r, s1) ->
  exists u, users s1 = (users s ++ [u])%list /\ idCounter s1 = idCounter s + 1 /\
    sanitize u = register_user r /\ id u = idCounter s /\
    email u = normalizeEmail (reg_email dto) /\
    password u = bcrypt_hash (reg_password dto) 10 salt.
Proof.
  intros Hr. destruct (register_Ok _ _ _ _ _ _ Hr) as (_ & -> & ->).
  eexists. split_and!; try reflexivity. simpl. apply normalizeEmail_idem_eq.
Qed.

(** C13: after registering with password [p], [login] succeeds with
    password [q] exactly when [q] and [p] agree on their first 72 bytes
    (bcrypt reads no more); for passwords of at most 72 bytes, exactly
    when [q = p]. *)
Theorem login_password_bound dto salt t s r s1 e q t' :
  register dto salt t s = (Ok r, s1) ->
  normalizeEmail e = normalizeEmail (reg_email dto) ->
  (is_ok (fst (login (mkLoginDto e q) t' s1)) = true <->
     bcrypt_input q = bcrypt_input (reg_password dto)) /\
  ((String.length q <= 72)%nat -> (String.length (reg_password dto) <= 72)%nat ->
     is_ok (fst (login (mkLoginDto e q) t' s1)) = true <-> q = reg_password dto).
Proof.
  intros Hr He. rewrite login_run. simpl. rewrite (register_Ok_find _ _ _ _ _ _ _ Hr He).
  simpl. rewrite bcrypt_compare_hash.
  destruct (String.eqb_spec (bcrypt_input q) (bcrypt_input (reg_password dto))) as [Heq|Hne];
    simpl; split; try done.
  - intros Hq Hp. rewrite !bcrypt_input_short in Heq by done. done.
  - intros Hq Hp. split; [done|]. intros ->. done.
Qed.


End WithLibraries.

(** C21: [UsersService.update] does not keep addresses unique: on any
    store, an update of one user that sets its address to a spelling of
    another user's address succeeds and leaves two records with one
    address; [update] normalises the new address but checks it against
    no other record. *)
Theorem update_breaks_unique_emails s u v e dto now :
  In u (users s) -> In v (users s) -> id u <> id v ->
  upd_email dto = Some e -> normalizeEmail e = email v ->
  is_ok (fst (update (id u) dto now s)) = true /\ ~ unique_emails (snd (update (id u) dto now s)).
Proof.
  intros Hu Hv Hid He Hev. rewrite update_run.
  destruct (find (has_id (id u)) (users s)) as [w|] eqn:Hf.
  - split; [done|]. unfold unique_emails. simpl.
    apply (update_first_dup _ _ _ _ _ Hv).
    + unfold has_id. by apply Z.eqb_neq.
    + intros x _. unfold apply_update. by rewrite He.
    + exists u. split; [done|]. apply Z.eqb_refl.
  - apply find_None_iff in Hf. rewrite List.Forall_forall in Hf.
    specialize (Hf u Hu). unfold has_id in Hf. by rewrite Z.eqb_refl in Hf.
Qed.

(** ** Witnesses, with the executable instances of [Crypto] *)

Lemma register_twice_conflict_witness :
  exists r s1,
    register ana_register "salt" 1000 initial = (Ok r, s1) /\
    register (mkRegisterDto "A" "D" "a2" "  ANA@test.COM" "x") "s2" 2000 s1 = (Thrown email_taken, s1).
Proof.
  eexists _, _. split; [cbv; reflexivity|].
  eapply (register_twice_conflict ana_register "salt" 1000 _ "s2" 2000 initial);
    [cbv; reflexivity|vm_compute; reflexivity].
Defined.

Lemma auth_reachable_unique_emails_witness :
  let s := run_auth_call sample_options (CallRegister ana_register "salt" 1000) initial in
  auth_reachable sample_options s /\ (wf s /\ unique_emails s).
Proof.
  intros s.
  assert (Hr : auth_reachable sample_options s) by (apply auth_reachable_call, auth_reachable_initial).
  split; [exact Hr|]. exact (auth_reachable_unique_emails sample_options s Hr).
Defined.

Lemma login_after_register_witness :
  exists r s1,
    register ana_register "salt" 1000 initial = (Ok r, s1) /\
    normalizeEmail "ANA@TEST.COM" = normalizeEmail (reg_email ana_register) /\
    exists tok,
      login sample_options (mkLoginDto "ANA@TEST.COM" "secret1") 2000 s1 =
        (Ok (mkLoginResponse tok (register_user r)), s1) /\
      jwt_decode "k" tok =
        Some (claims_at sample_options (mkJwtPayload (safe_id (register_user r))
               (safe_email (register_user r)) "Ana" "anad") 2000).
Proof.
  eexists _, _. split; [cbv; reflexivity|]. split; [vm_compute; reflexivity|].
  eapply (login_after_register sample_options ana_register "salt" 1000 initial);
    [cbv; reflexivity|vm_compute; reflexivity].
Defined.

Lemma login_failures_indistinguishable_witness :
  let s := snd (register ana_register "salt" 1000 initial) in
  login sample_options (mkLoginDto "ana@test.com" "wrong") 2000 s = (Thrown invalid_credentials, s) /\
  login sample_options (mkLoginDto "bob@test.com" "secret1") 2000 s = (Thrown invalid_credentials, s).
Proof.
  intros s.
  apply (login_failures_indistinguishable sample_options s "ana@test.com" "wrong"
           (new_user 1 1000 (createUserDto_of ana_register "ana@test.com"
                               (bcrypt_hash "secret1" 10 "salt"))));
    vm_compute; try reflexivity; discriminate.
Defined.

Lemma login_after_remove_witness :
  let s := snd (register ana_register "salt" 1000 initial) in
  login sample_options (mkLoginDto "ana@test.com" "secret1") 3000 (snd (remove 1 2500 s)) =
    (Thrown inactive_user, snd (remove 1 2500 s)).
Proof.
  intros s.
  apply (login_after_remove sample_options s "ana@test.com"
           (new_user 1 1000 (createUserDto_of ana_register "ana@test.com"
                               (bcrypt_hash "secret1" 10 "salt"))) 2500
           (mkMessageResponse "Usuario 1 desactivado correctamente")).
  - exact (create_wf 1000 _ initial initial_wf).
  - reflexivity.
  - reflexivity.
Defined.

Lemma register_stores_hash_witness :
  exists r s1, register ana_register "salt" 1000 initial = (Ok r, s1) /\
  exists u, users s1 = ([] ++ [u])%list /\ idCounter s1 = 1 + 1 /\
    sanitize u = register_user r /\ id u = 1 /\
    email u = normalizeEmail (reg_email ana_register) /\
    password u = bcrypt_hash (reg_password ana_register) 10 "salt".
Proof.
  eexists _, _. split; [cbv; reflexivity|].
  eapply (register_stores_hash ana_register "salt" 1000 initial). cbv; reflexivity.
Defined.

Lemma login_password_bound_witness :
  exists r s1, register ana_register "salt" 1000 initial = (Ok r, s1) /\
  normalizeEmail "ana@test.com" = normalizeEmail (reg_email ana_register) /\
  ((is_ok (fst (login sample_options (mkLoginDto "ana@test.com" "secret2") 2000 s1)) = true <->
     bcrypt_input "secret2" = bcrypt_input (reg_password ana_register)) /\
   ((String.length "secret2" <= 72)%nat -> (String.length (reg_password ana_register) <= 72)%nat ->
     is_ok (fst (login sample_options (mkLoginDto "ana@test.com" "secret2") 2000 s1)) = true <->
     "secret2" = reg_password ana_register)).
Proof.
  eexists _, _. split; [cbv; reflexivity|]. split; [vm_compute; reflexivity|].
  eapply (login_password_bound sample_options ana_register "salt" 1000 initial);
    [cbv; reflexivity|vm_compute; reflexivity].
Defined.

Lemma update_breaks_unique_emails_witness :
  let s := snd (create 2 (mkCreateUserDto "Bo" "Li" "bo" "bo@test.com" "h2") sample_state) in
  let dto := mkUpdateUserDto None None None (Some " ANA@test.com") None in
  is_ok (fst (update 2 dto 3 s)) = true /\ ~ unique_emails (snd (update 2 dto 3 s)).
Proof.
  intros s dto.
  apply (update_breaks_unique_emails s (new_user 2 2 (mkCreateUserDto "Bo" "Li" "bo" "bo@test.com" "h2"))
           (new_user 1 5 sample_dto) " ANA@test.com" dto 3);
    [vm_compute; right; left; reflexivity|vm_compute; left; reflexivity|vm_compute; discriminate
    |reflexivity|vm_compute; reflexivity].
Defined.

End AuthService.

