(* ===== verification/Strategy.v ===== *)
(** * Strategy: [JwtStrategy] and the passport pipeline it configures

    [JwtStrategy] ([src/src/auth/strategies/jwt.strategy.ts]): the
    secret [JWT_SECRET], the options the constructor passes to
    [PassportStrategy(Strategy)] ([jwtStrategyOptions]) and [validate],
    together the class [jwtStrategy];
    the [passport-jwt] pipeline those options configure (extract the
    bearer token of the [Authorization] header, verify signature and,
    unless [ignoreExpiration], expiry, call [validate]); the guard
    [JwtAuthGuard] that turns a failure into [UnauthorizedException].
    [passport-jwt], [jsonwebtoken] and [jwt-auth.guard.ts] are not code
    of [src/]: they are modelled from their documented behaviour.
    Theorems: a request without a usable bearer token never reaches the
    handler; an expired token is never accepted; an accepted token is a
    signature, under [JWT_SECRET], of what it carries. *)

From stdpp Require Import base decidable strings list.
From Stdlib Require Import String ZArith Lia Bool.
From S2P Require Import Prelude JsString Crypto Users Auth.
Import UsersService AuthService.

Open Scope string_scope.
Open Scope Z_scope.

Module JwtStrategy.

(** [export const JWT_SECRET = 'mi_clave_secreta_muy_segura_2024'] *)
Definition JWT_SECRET : string := "mi_clave_secreta_muy_segura_2024".

(** What [validate] returns, assigned to [req.user]. *)
Record ReqUser := mkReqUser {
  userId : Z;
  user_email : string;
  user_nombre : string
}.

#[export] Instance ReqUser_eq_dec : EqDecision ReqUser.
Proof. solve_decision. Defined.

(** [async validate(payload)]. *)
Definition validate (payload : JwtPayload) : ReqUser :=
  mkReqUser (sub payload) (payload_email payload) (payload_nombre payload).

End JwtStrategy.
Import JwtStrategy.

Module Passport.

(** The first maximal run of non-white-space characters, and the rest. *)
Fixpoint span_word (s : string) : string * string :=
  match s with
  | EmptyString => (EmptyString, EmptyString)
  | String c s' =>
      if is_js_whitespace c then (EmptyString, s)
      else let '(w, r) := span_word s' in (String c w, r)
  end.

(** [parseAuthHeader]: the regular expression [/(\S+)\s+(\S+)/] matched
    against the header value: its first two words. *)
Definition parseAuthHeader (hdrValue : string) : option (string * string) :=
  let '(scheme, rest) := span_word (trimStart hdrValue) in
  let '(value, _) := span_word (trimStart rest) in
  if String.eqb scheme EmptyString || String.eqb value EmptyString then None
  else Some (scheme, value).

(** [ExtractJwt.fromAuthHeaderAsBearerToken()]: the second word of the
    header when the first is [bearer] in any case. *)
Definition fromAuthHeaderAsBearerToken (authorization : option string) : option string :=
  match authorization with
  | None => None
  | Some hdr =>
      if String.eqb hdr EmptyString then None
      else match parseAuthHeader hdr with
           | Some (scheme, value) =>
               if String.eqb (toLowerCase scheme) "bearer" then Some value else None
           | None => None
           end
  end.

(** [jsonwebtoken.verify(token, secret, { ignoreExpiration })]: the
    signature must check under [secret]; unless [ignoreExpiration], the
    token is expired when [Math.floor(Date.now() / 1000) >= exp]. *)
Definition jwt_verify `{JwtCodec} (ignoreExpiration : bool) (secret token : string) (now : Z)
  : option JwtPayload :=
  match jwt_decode secret token with
  | None => None
  | Some c =>
      match exp c with
      | Some e =>
          if ignoreExpiration then Some (claims_payload c)
          else if e <=? now / 1000 then None else Some (claims_payload c)
      | None => Some (claims_payload c)
      end
  end.

(** The options object [JwtStrategy]'s constructor passes to
    [super(...)]. *)
Record StrategyOptions := mkStrategyOptions {
  jwtFromRequest : option string -> option string;
  ignoreExpiration : bool;
  secretOrKey : string
}.

(** [jwtFromRequest: ExtractJwt.fromAuthHeaderAsBearerToken(),
    ignoreExpiration: false, secretOrKey: JWT_SECRET]. *)
Definition jwtStrategyOptions : StrategyOptions :=
  mkStrategyOptions fromAuthHeaderAsBearerToken false JWT_SECRET.

(** A [PassportStrategy(Strategy)] subclass: the options its
    constructor passes to [super(...)] and its [validate] method. *)
Record PassportStrategy := mkPassportStrategy {
  strategy_options : StrategyOptions;
  strategy_validate : JwtPayload -> ReqUser
}.

(** [@Injectable() export class JwtStrategy extends PassportStrategy(Strategy)]. *)
Definition jwtStrategy : PassportStrategy := mkPassportStrategy jwtStrategyOptions validate.

(** [new UnauthorizedException()] thrown by [AuthGuard('jwt')] when the
    strategy fails. *)
Definition unauthorized : HttpException := UnauthorizedException "Unauthorized".

(** [JwtAuthGuard] with the strategy: the identity of the request, or
    the exception that short-circuits it. *)
Definition authenticate `{JwtCodec} (authorization : option string) (now : Z) : outcome ReqUser :=
  let opts := strategy_options jwtStrategy in
  match jwtFromRequest opts authorization with
  | None => Thrown unauthorized
  | Some token =>
      match jwt_verify (ignoreExpiration opts) (secretOrKey opts) token now with
      | None => Thrown unauthorized
      | Some payload => Ok (strategy_validate jwtStrategy payload)
      end
  end.

(** [@UseGuards(JwtAuthGuard)] on a handler: the handler runs only on
    an authenticated request, with [req.user] set. *)
Definition guarded `{JwtCodec} {A} (authorization : option string) (now : Z)
  (handler : ReqUser -> A) : outcome A :=
  match authenticate authorization now with
  | Ok user => Ok (handler user)
  | Thrown e => Thrown e
  end.

End Passport.
Import Passport.

(** ** Lemmas *)

Lemma span_word_word t : no_ws t = true -> span_word t = (t, EmptyString).
Proof.
  induction t as [|c t IH]; [done|]. unfold no_ws. simpl.
  destruct (is_js_whitespace c); [done|]. simpl. intros Ht. by rewrite IH.
Qed.

Lemma trimStart_word t : is_word t = true -> trimStart t = t.
Proof.
  unfold is_word. destruct t as [|c t]; [done|]. simpl.
  by destruct (is_js_whitespace c).
Qed.

(** The header [Bearer <token>] yields the token. *)
Lemma bearer_token t :
  is_word t = true -> fromAuthHeaderAsBearerToken (Some ("Bearer " ++ t)) = Some t.
Proof.
  intros Ht. pose proof Ht as Hw. unfold is_word in Hw. apply andb_prop in Hw as [Hne Hnws].
  unfold fromAuthHeaderAsBearerToken, parseAuthHeader. simpl. change (EmptyString ++ t)%string with t.
  rewrite (trimStart_word t Ht), (span_word_word t Hnws).
  apply negb_true_iff in Hne. by rewrite Hne.
Qed.

(** The pipeline with the options of [JwtStrategy]. *)
Lemma authenticate_run `{JwtCodec} authorization now :
  authenticate authorization now =
  match fromAuthHeaderAsBearerToken authorization with
  | None => Thrown unauthorized
  | Some token =>
      match jwt_verify false JWT_SECRET token now with
      | None => Thrown unauthorized
      | Some payload => Ok (validate payload)
      end
  end.
Proof. reflexivity. Qed.

(** The guard answers the handler's result on an authenticated request
    and the exception otherwise. *)
Lemma guarded_run `{JwtCodec} {A} authorization now (handler : ReqUser -> A) :
  guarded authorization now handler =
  match authenticate authorization now with
  | Ok user => Ok (handler user)
  | Thrown e => Thrown e
  end.
Proof. reflexivity. Qed.

Lemma authenticate_token `{JwtCodec} t c now :
  jwt_decode JWT_SECRET t = Some c ->
  (forall e, exp c = Some e -> now / 1000 < e) ->
  authenticate (Some ("Bearer " ++ t)) now = Ok (validate (claims_payload c)).
Proof.
  intros Hc Hexp. rewrite authenticate_run.
  rewrite bearer_token by (rewrite (jwt_decode_sound _ _ _ Hc); apply jwt_sign_word).
  unfold jwt_verify. rewrite Hc.
  destruct (exp c) as [e|]; [|done]. specialize (Hexp e eq_refl).
  case_bool; [lia|done].
Qed.

(** ** Theorems *)

Section Theorems.
Context `{Bcrypt} `{JwtCodec}.

(** C14: a request whose [Authorization] header is missing, or does
    not carry a bearer token, is answered with
    [UnauthorizedException] and its handler is not run: the answer is
    the same for every handler. *)
Theorem guard_without_token {A} authorization now (handler : ReqUser -> A) :
  fromAuthHeaderAsBearerToken authorization = None ->
  guarded authorization now handler = Thrown unauthorized.
Proof. intros Hn. rewrite guarded_run, authenticate_run. by rewrite Hn. Qed.

(** C15: a token whose [exp] is at or before the current second is
    refused, whatever else holds of it. *)
Theorem expired_token_rejected authorization t c e now :
  fromAuthHeaderAsBearerToken authorization = Some t ->
  jwt_decode JWT_SECRET t = Some c ->
  exp c = Some e -> e <= now / 1000 ->
  authenticate authorization now = Thrown unauthorized.
Proof.
  intros Ht Hc He Hle. rewrite authenticate_run. unfold jwt_verify. rewrite Ht, Hc, He.
  by destruct (Z.leb_spec e (now / 1000)); [|lia].
Qed.

(** C16: a request the guard lets through carries a token that is the
    signature under [JWT_SECRET] of claims that have not expired, and
    [req.user] is [validate] of their payload. *)
Theorem accepted_token_signed authorization now u :
  authenticate authorization now = Ok u ->
  exists t c, fromAuthHeaderAsBearerToken authorization = Some t /\
    t = jwt_sign JWT_SECRET c /\ u = validate (claims_payload c) /\
    (forall e, exp c = Some e -> now / 1000 < e).
Proof.
  rewrite authenticate_run. unfold jwt_verify.
  destruct (fromAuthHeaderAsBearerToken authorization) as [t|]; [|done].
  destruct (jwt_decode JWT_SECRET t) as [c|] eqn:Hc; [|done].
  intros Hu. exists t, c. split_and!; [done|by apply jwt_decode_sound| |].
  - destruct (exp c) as [e|]; [destruct (e <=? now / 1000)|]; congruence.
  - intros e He. rewrite He in Hu. destruct (Z.leb_spec e (now / 1000)); [done|lia].
Qed.

End Theorems.

(** ** Witnesses, with the executable instances of [Crypto] *)

Definition ana_claims : JwtClaims := mkJwtClaims (mkJwtPayload 1 "ana@test.com" "Ana" "anad") 1 (Some 5).

Lemma guard_without_token_witness :
  fromAuthHeaderAsBearerToken (Some "Basic YWxhZGRpbg==") = None /\
  guarded (Some "Basic YWxhZGRpbg==") 0 userId = Thrown unauthorized.
Proof.
  assert (Hn : fromAuthHeaderAsBearerToken (Some "Basic YWxhZGRpbg==") = None) by reflexivity.
  split; [exact Hn|]. exact (guard_without_token _ 0 userId Hn).
Defined.

Lemma expired_token_rejected_witness :
  authenticate (Some ("Bearer " ++ jwt_sign JWT_SECRET ana_claims)) 5000 = Thrown unauthorized.
Proof.
  apply (expired_token_rejected _ (jwt_sign JWT_SECRET ana_claims) ana_claims 5);
    [vm_compute; reflexivity|vm_compute; reflexivity|reflexivity|vm_compute; discriminate].
Defined.

Lemma accepted_token_signed_witness :
  exists t c, fromAuthHeaderAsBearerToken (Some ("Bearer " ++ jwt_sign JWT_SECRET ana_claims)) = Some t /\
    t = jwt_sign JWT_SECRET c /\ validate (claims_payload ana_claims) = validate (claims_payload c) /\
    (forall e, exp c = Some e -> 4000 / 1000 < e).
Proof.
  apply accepted_token_signed. vm_compute. reflexivity.
Defined.

