(* ===== verification/Http.v ===== *)
(** * Http: [AuthController] ([src/src/auth/auth.controller.ts])

    The four routes of the controller, the two behind [JwtAuthGuard],
    the route table of the decorators and [dispatch], and the theorems
    that compose the whole program: the token [login] issues opens the
    protected routes for the user's id until it expires, provided the
    module signs with [JWT_SECRET]; with another secret no token is
    accepted; a token lives exactly [expiresIn] seconds from the
    second it was issued in; only registration writes the store; the guarded routes refuse a request without a
    token. *)

From stdpp Require Import base decidable strings list.
From Stdlib Require Import String ZArith Lia Bool.
From S2P Require Import Prelude JsString Crypto Users Auth Strategy.
Import UsersService AuthService JwtStrategy Passport.

Open Scope string_scope.
Open Scope Z_scope.

Module AuthController.

Record ProfileResponse := mkProfileResponse {
  profile_message : string;
  profile_user : ReqUser
}.

(** [timestamp: new Date().toISOString()] is kept as the time value. *)
Record ProtectedResponse := mkProtectedResponse {
  protected_message : string;
  protected_timestamp : Z;
  protected_userId : Z
}.

(** [@Post('register')] and [@Post('login')]: the service's methods. *)
Definition register `{Bcrypt} (registerDto : RegisterDto) (salt : string) (now : Z)
  : M UsersState RegisterResponse :=
  AuthService.register registerDto salt now.

Definition login `{Bcrypt} `{JwtCodec} (options : JwtModuleOptions) (loginDto : LoginDto) (now : Z)
  : M UsersState LoginResponse :=
  AuthService.login options loginDto now.

(** [@Get('profile')] handler. *)
Definition getProfile (req_user : ReqUser) : ProfileResponse :=
  mkProfileResponse "Perfil obtenido exitosamente" req_user.

(** [@Get('protected')] handler at time [now]. *)
Definition protectedRoute (now : Z) (req_user : ReqUser) : ProtectedResponse :=
  mkProtectedResponse ("Hola " ++ user_nombre req_user ++ ". Esta es una ruta protegida.")
                      now (userId req_user).

(** [GET /auth/profile] and [GET /auth/protected] behind the guard. *)
Definition profile_route `{JwtCodec} (authorization : option string) (now : Z)
  : outcome ProfileResponse :=
  guarded authorization now getProfile.

Definition protected_route `{JwtCodec} (authorization : option string) (now : Z)
  : outcome ProtectedResponse :=
  guarded authorization now (protectedRoute now).

(** ** Routing

    [@Controller('auth')] mounts the four handlers under [/auth], at the
    method and sub-path of their decorators.  A request that matches no
    route is answered by the framework's [NotFoundException]. *)

Definition controller_path : string := "auth".

Inductive HttpMethod := GET | POST.

#[export] Instance HttpMethod_eq_dec : EqDecision HttpMethod.
Proof. solve_decision. Defined.

Definition method_name (m : HttpMethod) : string :=
  match m with GET => "GET" | POST => "POST" end.

Inductive Handler := HRegister | HLogin | HProfile | HProtected.

(** The decorators, in the order of the class body. *)
Definition routes : list (HttpMethod * string * Handler) :=
  [(POST, "register", HRegister); (POST, "login", HLogin);
   (GET, "profile", HProfile); (GET, "protected", HProtected)].

Definition route_path (sub : string) : string := "/" ++ controller_path ++ "/" ++ sub.

Definition route_of (m : HttpMethod) (path : string) : option Handler :=
  option_map snd (find (fun '(m', sub, _) => bool_decide (m' = m) && String.eqb (route_path sub) path)
                       routes).

Definition route_not_found (m : HttpMethod) (path : string) : HttpException :=
  NotFoundException ("Cannot " ++ method_name m ++ " " ++ path).

(** The JSON body; [@Body()] hands it to the handler as its DTO. *)
Record JsonBody := mkJsonBody {
  body_nombre : string;
  body_apellido : string;
  body_username : string;
  body_email : string;
  body_password : string
}.

Definition registerDto_of (b : JsonBody) : RegisterDto :=
  mkRegisterDto (body_nombre b) (body_apellido b) (body_username b) (body_email b) (body_password b).

Definition loginDto_of (b : JsonBody) : LoginDto := mkLoginDto (body_email b) (body_password b).

Record HttpRequest := mkHttpRequest {
  req_method : HttpMethod;
  req_path : string;
  req_authorization : option string;
  req_body : JsonBody
}.

Inductive HttpResponse :=
| RegisterResult (r : RegisterResponse)
| LoginResult (r : LoginResponse)
| ProfileResult (r : ProfileResponse)
| ProtectedResult (r : ProtectedResponse).

(** An answer computed without the store. *)
Definition lift {S A} (o : outcome A) : M S A := fun s => (o, s).

(** One request to the controller ([salt]: what [bcrypt.hash] draws;
    [now]: the clock). *)
Definition dispatch `{Bcrypt} `{JwtCodec} (options : JwtModuleOptions) (req : HttpRequest)
  (salt : string) (now : Z) : M UsersState HttpResponse :=
  match route_of (req_method req) (req_path req) with
  | Some HRegister => r <- register (registerDto_of (req_body req)) salt now ;; ret (RegisterResult r)
  | Some HLogin => r <- login options (loginDto_of (req_body req)) now ;; ret (LoginResult r)
  | Some HProfile =>
      r <- lift (profile_route (req_authorization req) now) ;; ret (ProfileResult r)
  | Some HProtected =>
      r <- lift (protected_route (req_authorization req) now) ;; ret (ProtectedResult r)
  | None => throw (route_not_found (req_method req) (req_path req))
  end.

End AuthController.

(** ** Theorems *)

Section Theorems.
Context `{Bcrypt} `{JwtCodec}.

(** C17: the token [login] returns to a registered user opens
    [GET /auth/protected] for that user's id and name until it expires,
    when the JWT module signs with [JWT_SECRET]. *)
Theorem login_token_opens_protected options dto salt t0 s r s1 e t1 t2 :
  register dto salt t0 s = (Ok r, s1) ->
  normalizeEmail e = normalizeEmail (reg_email dto) ->
  jwt_secret options = JWT_SECRET ->
  (forall x, jwt_expiresIn options = Some x -> t2 / 1000 < t1 / 1000 + x) ->
  exists tok,
    AuthController.login options (mkLoginDto e (reg_password dto)) t1 s1 =
      (Ok (mkLoginResponse tok (register_user r)), s1) /\
    AuthController.protected_route (Some ("Bearer " ++ tok)) t2 =
      Ok (AuthController.mkProtectedResponse
            ("Hola " ++ reg_nombre dto ++ ". Esta es una ruta protegida.") t2
            (safe_id (register_user r))).
Proof.
  intros Hr He Hsec Hexp. pose proof (register_Ok_find _ _ _ _ _ _ _ Hr He) as Hfind.
  destruct (register_Ok _ _ _ _ _ _ Hr) as (_ & _ & ->).
  eexists. split.
  - unfold AuthController.login. rewrite login_run. simpl. rewrite Hfind. simpl.
    by rewrite bcrypt_compare_hash, String.eqb_refl.
  - unfold AuthController.protected_route. rewrite guarded_run, Hsec.
    rewrite (authenticate_token _ _ _ (jwt_decode_sign _ _)); [done|].
    simpl. intros x. destruct (jwt_expiresIn options) as [d|]; [|done].
    intros [= <-]. by apply Hexp.
Qed.

(** C18: when the JWT module signs with a secret other than
    [JWT_SECRET], no token [login] issues is ever accepted by the
    guard. *)
Theorem other_secret_rejected options dto t s resp s' authorization now :
  jwt_secret options <> JWT_SECRET ->
  AuthController.login options dto t s = (Ok resp, s') ->
  fromAuthHeaderAsBearerToken authorization = Some (access_token resp) ->
  authenticate authorization now = Thrown unauthorized.
Proof.
  intros Hsec. unfold AuthController.login. rewrite login_run.
  destruct (find _ _) as [u|]; [|done].
  destruct (isActive u) as [[]|]; try done;
    destruct (bcrypt_compare _ _); try done; intros [= <- _] Ht;
    rewrite authenticate_run; unfold jwt_verify; rewrite Ht; simpl;
    by rewrite (jwt_decode_other_secret _ _ _ Hsec).
Qed.

(** C25: only [POST /auth/register] writes the user store: logging in,
    the two guarded routes and a request that matches no route leave
    [this.users] and the counter as they were, whatever they answer. *)
Theorem dispatch_read_only options req salt now s :
  AuthController.route_of (AuthController.req_method req) (AuthController.req_path req)
    <> Some AuthController.HRegister ->
  snd (AuthController.dispatch options req salt now s) = s.
Proof.
  unfold AuthController.dispatch.
  destruct (AuthController.route_of _ _) as [[]|]; intros Hr; try done;
    apply bind_same_state; try done.
  unfold AuthController.login. rewrite login_run. done.
Qed.

(** C26: the two routes under [@UseGuards(JwtAuthGuard)],
    [GET /auth/profile] and [GET /auth/protected], answer a request
    without a bearer token with [UnauthorizedException] before their
    handler runs, and leave the store as it was. *)
Theorem dispatch_guarded_without_token options req salt now s :
  AuthController.route_of (AuthController.req_method req) (AuthController.req_path req)
    = Some AuthController.HProfile \/
  AuthController.route_of (AuthController.req_method req) (AuthController.req_path req)
    = Some AuthController.HProtected ->
  fromAuthHeaderAsBearerToken (AuthController.req_authorization req) = None ->
  AuthController.dispatch options req salt now s = (Thrown unauthorized, s).
Proof.
  intros [Hr|Hr] Hn; unfold AuthController.dispatch; rewrite Hr;
    unfold AuthController.profile_route, AuthController.protected_route;
    by rewrite guarded_run, authenticate_run, Hn.
Qed.

(** C28: a token signed at time [t0] by a module configured with
    [JWT_SECRET] and [expiresIn] = [x] seconds opens the guard at time
    [t] exactly when [floor(t / 1000) < floor(t0 / 1000) + x]: its
    lifetime is [x] seconds counted from the second it was issued in,
    and at the second [exp] it is refused. *)
Theorem token_lifetime options payload t0 t x :
  jwt_secret options = JWT_SECRET -> jwt_expiresIn options = Some x ->
  authenticate (Some ("Bearer " ++ jwt_sign (jwt_secret options) (claims_at options payload t0))) t =
  if t / 1000 <? t0 / 1000 + x then Ok (validate payload) else Thrown unauthorized.
Proof.
  intros Hsec Hx. rewrite authenticate_run, bearer_token by apply jwt_sign_word.
  unfold jwt_verify. rewrite Hsec, jwt_decode_sign. unfold claims_at. simpl. rewrite Hx. simpl.
  destruct (Z.leb_spec (t0 / 1000 + x) (t / 1000)), (Z.ltb_spec (t / 1000) (t0 / 1000 + x)); done || lia.
Qed.

End Theorems.

(** ** Witnesses, with the executable instances of [Crypto] *)

Lemma login_token_opens_protected_witness :
  exists r s1, AuthService.register ana_register "salt" 1000 initial = (Ok r, s1) /\
  exists tok,
    AuthController.login (mkJwtModuleOptions JWT_SECRET (Some 3600))
      (mkLoginDto "ANA@TEST.COM" (reg_password ana_register)) 2000 s1 =
      (Ok (mkLoginResponse tok (register_user r)), s1) /\
    AuthController.protected_route (Some ("Bearer " ++ tok)) 60000 =
      Ok (AuthController.mkProtectedResponse
            ("Hola " ++ reg_nombre ana_register ++ ". Esta es una ruta protegida.") 60000
            (safe_id (register_user r))).
Proof.
  eexists _, _. split; [cbv; reflexivity|].
  eapply (login_token_opens_protected (mkJwtModuleOptions JWT_SECRET (Some 3600)) ana_register "salt" 1000
            initial).
  - cbv. reflexivity.
  - vm_compute. reflexivity.
  - reflexivity.
  - intros x [= <-]. vm_compute. reflexivity.
Defined.

Lemma other_secret_rejected_witness :
  exists resp s',
    AuthController.login (mkJwtModuleOptions "other" (Some 3600)) (mkLoginDto "ana@test.com" "secret1") 2000
      (snd (AuthService.register ana_register "salt" 1000 initial)) = (Ok resp, s') /\
    authenticate (Some ("Bearer " ++ access_token resp)) 2000 = Thrown unauthorized.
Proof.
  eexists _, _. split; [cbv; reflexivity|].
  eapply (other_secret_rejected (mkJwtModuleOptions "other" (Some 3600)) (mkLoginDto "ana@test.com" "secret1") 2000
            (snd (AuthService.register ana_register "salt" 1000 initial))).
  - discriminate.
  - cbv. reflexivity.
  - vm_compute. reflexivity.
Defined.

Lemma dispatch_read_only_witness :
  let req := AuthController.mkHttpRequest AuthController.POST "/auth/login" None
               (AuthController.mkJsonBody "" "" "" "ana@test.com" "secret1") in
  let s := snd (AuthService.register ana_register "salt" 1000 initial) in
  AuthController.route_of (AuthController.req_method req) (AuthController.req_path req)
    = Some AuthController.HLogin /\
  snd (AuthController.dispatch (mkJwtModuleOptions JWT_SECRET (Some 3600)) req "salt" 2000 s) = s.
Proof.
  intros req s. split; [vm_compute; reflexivity|].
  apply dispatch_read_only. vm_compute. discriminate.
Defined.

Lemma dispatch_guarded_without_token_witness :
  let req := AuthController.mkHttpRequest AuthController.GET "/auth/profile" (Some "Basic abc")
               (AuthController.mkJsonBody "" "" "" "" "") in
  AuthController.dispatch (mkJwtModuleOptions JWT_SECRET (Some 3600)) req "salt" 2000 initial
    = (Thrown unauthorized, initial).
Proof.
  intros req. apply dispatch_guarded_without_token; [left|]; vm_compute; reflexivity.
Defined.

Lemma token_lifetime_witness :
  authenticate (Some ("Bearer " ++ jwt_sign JWT_SECRET
                  (claims_at (mkJwtModuleOptions JWT_SECRET (Some 3600)) (claims_payload ana_claims) 1999))) 3600999
  = Ok (validate (claims_payload ana_claims)).
Proof.
  apply (token_lifetime (mkJwtModuleOptions JWT_SECRET (Some 3600)) _ 1999 3600999 3600); reflexivity.
Defined.
