(* ===== verification/Async.v ===== *)
(** * Async: requests interleaved on the Node.js event loop

    [AuthService.register] awaits [bcrypt.hash] between its duplicate
    check ([auth.service.ts:30-33]) and [UsersService.create]
    ([auth.service.ts:39]); [AuthService.login] awaits [bcrypt.compare]
    ([auth.service.ts:74]) and [jwtService.signAsync]
    ([auth.service.ts:87]).  Each [await] ends a synchronous slice of the
    method: other requests run before it resumes.  The slices are the
    definitions below; [run_event] runs one slice of one request on the
    shared [UsersService] object.  A login keeps a reference to the user
    object it found (its index in the array, which never shrinks) and
    reads the object's fields again after each [await], as the code
    does.  Theorems: the store invariant [wf] holds under every interleaving;
    two registrations of one address that overlap both succeed and leave
    two records with that address, and without such an overlap the
    addresses stay unique (the queue of suspended requests is compared up
    to permutation, a [Proper] instance for setoid rewriting); a login
    that arrives while the registration of its address awaits the hash
    fails, and succeeds in reaching [bcrypt.compare] once the hash has
    settled; a registration of a stored address is refused before any
    hash. *)

From stdpp Require Import base decidable strings list.
From Stdlib Require Import String ZArith Lia Bool.
From S2P Require Import Prelude JsString Crypto Users Auth.
Import UsersService AuthService.

Open Scope string_scope.
Open Scope Z_scope.

Module EventLoop.

(** ** The slices of the two methods *)

Section Slices.
Context `{Bcrypt} `{JwtCodec} (options : JwtModuleOptions).

(** [register], up to [await bcrypt.hash(...)]: the normalised address
    it carries over the [await]. *)
Definition register_check (registerDto : RegisterDto) : M UsersState string :=
  let email := normalizeEmail (reg_email registerDto) in
  existingUser <- findByEmail email ;;
  match existingUser with
  | Some _ => throw email_taken
  | None => ret email
  end.

(** [register], after the hash [hashedPassword] is computed. *)
Definition register_commit (registerDto : RegisterDto) (email hashedPassword : string) (now : Z)
  : M UsersState RegisterResponse :=
  userCreated <- create now (createUserDto_of registerDto email hashedPassword) ;;
  ret (mkRegisterResponse "Usuario registrado correctamente" userCreated).

(** [this.users.find(...)] as a reference: the index of the object. *)
Fixpoint find_index {A} (p : A -> bool) (l : list A) : option nat :=
  match l with
  | [] => None
  | x :: l' => if p x then Some 0%nat else option_map S (find_index p l')
  end.

(** [login], up to [await bcrypt.compare(loginDto.password, user.password)]:
    the reference to the user and the digest read before the [await]. *)
Definition login_lookup (loginDto : LoginDto) : M UsersState (nat * string) :=
  s <- get ;;
  let email := normalizeEmail (login_email loginDto) in
  match find_index (has_email (normalizeEmail email)) (users s) with
  | None => throw invalid_credentials
  | Some i =>
      match nth_error (users s) i with
      | None => throw invalid_credentials
      | Some user =>
          match isActive user with
          | Some false => throw inactive_user
          | _ => ret (i, password user)
          end
      end
  end.

(** The object a reference denotes in the current state. *)
Definition deref (i : nat) : M UsersState User :=
  s <- get ;;
  match nth_error (users s) i with
  | Some u => ret u
  | None => throw invalid_credentials
  end.

(** [login], after [bcrypt.compare] answered [passwordOk], up to
    [await this.jwtService.signAsync(payload)]: the payload, read from
    the object as it is now. *)
Definition login_check (i : nat) (passwordOk : bool) : M UsersState JwtPayload :=
  if negb passwordOk then throw invalid_credentials
  else user <- deref i ;; ret (payload_of user).

(** [login], after the token is signed: the sanitised copy of the
    object as it is now. *)
Definition login_respond (i : nat) (accessToken : string) : M UsersState LoginResponse :=
  user <- deref i ;;
  ret (mkLoginResponse accessToken (sanitize user)).

(** ** The event loop *)

(** What a suspended request waits for, with what it carries over. *)
Inductive pending :=
| AwaitHash (dto : RegisterDto) (email : string)
| AwaitCompare (dto : LoginDto) (user : nat) (digest : string)
| AwaitSign (user : nat) (payload : JwtPayload).

Inductive response :=
| Registered (r : RegisterResponse)
| LoggedIn (r : LoginResponse).

Record loop_state := mkLoopState {
  store : UsersState;
  suspended : list (nat * pending);
  answered : list (nat * outcome response)
}.

Definition loop_initial : loop_state := mkLoopState initial [] [].

(** One macrotask: a request arrives, or the promise a suspended
    request awaits settles ([salt] is the salt [bcrypt.hash] drew,
    [now] the clock when the continuation runs). *)
Inductive event :=
| RegisterRequest (rid : nat) (dto : RegisterDto)
| LoginRequest (rid : nat) (dto : LoginDto)
| HashDone (rid : nat) (salt : string) (now : Z)
| CompareDone (rid : nat)
| SignDone (rid : nat) (now : Z).

(** Take the continuation of request [rid] out of the queue. *)
Fixpoint take (rid : nat) (l : list (nat * pending)) : option (pending * list (nat * pending)) :=
  match l with
  | [] => None
  | (r, p) :: l' =>
      if Nat.eqb r rid then Some (p, l')
      else option_map (fun '(q, l'') => (q, (r, p) :: l'')) (take rid l')
  end.

(** Run a slice [m]; on an exception the request is answered, else it
    is suspended on [k] of the value, or answered with it. *)
Definition slice {A} (st : loop_state) (rid : nat) (rest : list (nat * pending))
  (m : M UsersState A) (k : A -> pending + response) : loop_state :=
  match m (store st) with
  | (Thrown e, s') => mkLoopState s' rest (answered st ++ [(rid, Thrown e)])
  | (Ok a, s') =>
      match k a with
      | inl p => mkLoopState s' (rest ++ [(rid, p)]) (answered st)
      | inr r => mkLoopState s' rest (answered st ++ [(rid, Ok r)])
      end
  end.

Definition run_event (ev : event) (st : loop_state) : loop_state :=
  match ev with
  | RegisterRequest rid dto =>
      slice st rid (suspended st) (register_check dto) (fun email => inl (AwaitHash dto email))
  | LoginRequest rid dto =>
      slice st rid (suspended st) (login_lookup dto)
            (fun '(i, digest) => inl (AwaitCompare dto i digest))
  | HashDone rid salt now =>
      match take rid (suspended st) with
      | Some (AwaitHash dto email, rest) =>
          slice st rid rest
                (register_commit dto email (bcrypt_hash (reg_password dto) 10 salt) now)
                (fun r => inr (Registered r))
      | _ => st
      end
  | CompareDone rid =>
      match take rid (suspended st) with
      | Some (AwaitCompare dto i digest, rest) =>
          slice st rid rest (login_check i (bcrypt_compare (login_password dto) digest))
                (fun payload => inl (AwaitSign i payload))
      | _ => st
      end
  | SignDone rid now =>
      match take rid (suspended st) with
      | Some (AwaitSign i payload, rest) =>
          slice st rid rest
                (login_respond i (jwt_sign (jwt_secret options) (claims_at options payload now)))
                (fun r => inr (LoggedIn r))
      | _ => st
      end
  end.

Definition run_events (evs : list event) (st : loop_state) : loop_state :=
  fold_left (fun st ev => run_event ev st) evs st.

(** The states of the event loop. *)
Inductive loop_reachable : loop_state -> Prop :=
| loop_reachable_initial : loop_reachable loop_initial
| loop_reachable_event ev st : loop_reachable st -> loop_reachable (run_event ev st).

(** ** Registrations that do not overlap *)

(** The addresses of the registrations waiting for their hash. *)
Fixpoint hashing_emails (l : list (nat * pending)) : list string :=
  match l with
  | [] => []
  | (_, AwaitHash _ e) :: l' => e :: hashing_emails l'
  | _ :: l' => hashing_emails l'
  end.

(** An event is overlap-free when it does not start a registration of
    an address another registration is hashing. *)
Definition overlap_free (ev : event) (st : loop_state) : Prop :=
  match ev with
  | RegisterRequest _ dto => normalizeEmail (reg_email dto) ∉ hashing_emails (suspended st)
  | _ => True
  end.

(** The states reached by overlap-free events. *)
Inductive serial_reachable : loop_state -> Prop :=
| serial_reachable_initial : serial_reachable loop_initial
| serial_reachable_event ev st :
    serial_reachable st -> overlap_free ev st -> serial_reachable (run_event ev st).

(** The invariant of those states: the store is well formed, and the
    stored addresses and those being hashed are normalised and pairwise
    distinct. *)
Definition serial_inv (st : loop_state) : Prop :=
  wf (store st) /\
  NoDup (map email (users (store st)) ++ hashing_emails (suspended st)) /\
  Forall (fun e => normalizeEmail e = e) (hashing_emails (suspended st)).

(** ** Lemmas *)

Lemma register_check_store dto s : snd (register_check dto s) = s.
Proof.
  unfold register_check. rewrite (bind_Ok _ _ _ _ _ (findByEmail_run _ s)).
  by destruct (find _ (users s)).
Qed.

Lemma login_lookup_store dto s : snd (login_lookup dto s) = s.
Proof.
  unfold login_lookup. run_M.
  destruct (find_index _ _) as [i|]; [|done].
  destruct (nth_error _ i) as [u|]; [|done]. by destruct (isActive u) as [[]|].
Qed.

Lemma deref_store i s : snd (deref i s) = s.
Proof. unfold deref. run_M. by destruct (nth_error _ _). Qed.

Lemma login_check_store i b s : snd (login_check i b s) = s.
Proof.
  unfold login_check. destruct b; simpl; [|done].
  unfold bind. pose proof (deref_store i s). destruct (deref i s) as [[]]; simpl in *; by subst.
Qed.

Lemma login_respond_store i t s : snd (login_respond i t s) = s.
Proof.
  unfold login_respond, bind. pose proof (deref_store i s).
  destruct (deref i s) as [[]]; simpl in *; by subst.
Qed.

Lemma register_commit_wf dto e h now s : wf s -> wf (snd (register_commit dto e h now s)).
Proof. intros Hwf. exact (create_wf now _ s Hwf). Qed.

(** A slice leaves the store its program leaves. *)
Lemma slice_store {A} st rid rest (m : M UsersState A) k :
  store (slice st rid rest m k) = snd (m (store st)).
Proof. unfold slice. destruct (m (store st)) as [[a|e] s']; [destruct (k a)|]; done. Qed.

Lemma run_event_wf ev st : wf (store st) -> wf (store (run_event ev st)).
Proof.
  intros Hwf. destruct ev as [rid dto|rid dto|rid salt now|rid|rid now]; simpl.
  - by rewrite slice_store, register_check_store.
  - by rewrite slice_store, login_lookup_store.
  - destruct (take rid (suspended st)) as [[[] rest]|]; try done.
    rewrite slice_store. by apply register_commit_wf.
  - destruct (take rid (suspended st)) as [[[] rest]|]; try done.
    by rewrite slice_store, login_check_store.
  - destruct (take rid (suspended st)) as [[[] rest]|]; try done.
    by rewrite slice_store, login_respond_store.
Qed.

Lemma run_events_reachable evs st :
  loop_reachable st -> loop_reachable (run_events evs st).
Proof.
  revert st. induction evs as [|ev evs IH]; intros st Hst; simpl; [done|].
  apply IH. by apply loop_reachable_event.
Qed.

(** The continuation taken out of the queue was in it. *)
Lemma take_perm rid l p rest : take rid l = Some (p, rest) -> l ≡ₚ (rid, p) :: rest.
Proof.
  revert rest. induction l as [|[r q] l IH]; intros rest; simpl; [done|].
  destruct (Nat.eqb_spec r rid) as [->|_].
  - by intros [= -> ->].
  - destruct (take rid l) as [[q' l'']|] eqn:Ht; simpl; [|done]. intros [= -> <-].
    rewrite (IH l'' eq_refl). by constructor.
Qed.

Lemma hashing_emails_app l l' : hashing_emails (l ++ l')%list = (hashing_emails l ++ hashing_emails l')%list.
Proof. induction l as [|[r []] l IH]; simpl; by rewrite ?IH. Qed.

#[export] Instance hashing_emails_perm : Proper ((≡ₚ) ==> (≡ₚ)) hashing_emails.
Proof.
  induction 1 as [|[r p] l l' _ IH|[r p] [r' p'] l|l l' l'' _ IH1 _ IH2]; simpl.
  - done.
  - destruct p; by rewrite IH.
  - destruct p, p'; by try constructor.
  - by rewrite IH1, IH2.
Qed.

Lemma register_check_run dto s :
  register_check dto s =
  match find (has_email (normalizeEmail (reg_email dto))) (users s) with
  | Some _ => (Thrown email_taken, s)
  | None => (Ok (normalizeEmail (reg_email dto)), s)
  end.
Proof.
  unfold register_check. rewrite (bind_Ok _ _ _ _ _ (findByEmail_run _ s)).
  rewrite normalizeEmail_idem_eq. by destruct (find _ (users s)).
Qed.

(** A slice that keeps the store and suspends no registration keeps the
    invariant, when the queue it leaves has the same hashing addresses. *)
Lemma slice_inv {A} st rid rest (m : M UsersState A) k :
  serial_inv st -> (forall s, snd (m s) = s) ->
  (forall a dto e, k a <> inl (AwaitHash dto e)) ->
  hashing_emails rest ≡ₚ hashing_emails (suspended st) ->
  serial_inv (slice st rid rest m k).
Proof.
  intros (Hwf & Hnd & Hn) Hm Hk Hp. unfold slice.
  pose proof (Hm (store st)) as Hs. destruct (m (store st)) as [[a|e] s']; simpl in Hs; subst s'.
  - destruct (k a) as [q|r] eqn:Hka; unfold serial_inv; simpl.
    + rewrite hashing_emails_app.
      destruct q as [dto e|dto i d|i pl]; [by destruct (Hk a dto e)| |];
        simpl; rewrite app_nil_r, Hp; done.
    + by rewrite Hp.
  - unfold serial_inv; simpl. by rewrite Hp.
Qed.

(** Every overlap-free event keeps the invariant. *)
Lemma run_event_serial_inv ev st :
  overlap_free ev st -> serial_inv st -> serial_inv (run_event ev st).
Proof.
  intros Hov Hinv. pose proof Hinv as (Hwf & Hnd & Hn).
  destruct ev as [rid dto|rid dto|rid salt now|rid|rid now]; simpl in *.
  - unfold slice. rewrite register_check_run.
    destruct (find _ (users (store st))) eqn:Hf; [done|].
    unfold serial_inv; simpl. split_and!; [done| |].
    + rewrite hashing_emails_app, app_assoc. apply NoDup_app_fresh; [done|].
      rewrite in_app_iff. intros [(u & Hue & Hin)%in_map_iff|Hh].
      * apply find_None_iff in Hf. rewrite List.Forall_forall in Hf.
        specialize (Hf u Hin). unfold has_email in Hf. rewrite Hue, String.eqb_refl in Hf. done.
      * by apply Hov, list_elem_of_In.
    + rewrite hashing_emails_app. apply Forall_app. split; [done|].
      constructor; [apply normalizeEmail_idem_eq|constructor].
  - apply slice_inv; [done|apply login_lookup_store| |done]. by intros [].
  - destruct (take rid (suspended st)) as [[[dto e|dto i d|i pl] rest]|] eqn:Ht; try done.
    apply take_perm, hashing_emails_perm in Ht. simpl in Ht.
    unfold slice, register_commit. rewrite (bind_Ok _ _ _ _ _ (create_run _ _ _)).
    unfold serial_inv; simpl. rewrite Ht in Hnd, Hn.
    apply Forall_cons in Hn as [He Hn]. split_and!.
    + exact (create_wf now _ _ Hwf).
    + rewrite map_app. simpl. rewrite He, <- app_assoc. simpl. done.
    + done.
  - destruct (take rid (suspended st)) as [[[dto e|dto i d|i pl] rest]|] eqn:Ht; try done.
    apply take_perm, hashing_emails_perm in Ht. simpl in Ht.
    apply slice_inv; [done|intros; apply login_check_store|done|by rewrite Ht].
  - destruct (take rid (suspended st)) as [[[dto e|dto i d|i pl] rest]|] eqn:Ht; try done.
    apply take_perm, hashing_emails_perm in Ht. simpl in Ht.
    apply slice_inv; [done|intros; apply login_respond_store|done|by rewrite Ht].
Qed.

Lemma find_index_None {A} (p : A -> bool) l : find p l = None -> find_index p l = None.
Proof. induction l as [|x l IH]; simpl; [done|]. destruct (p x); [done|]. by intros ->%IH. Qed.

Lemma find_index_snoc {A} (p : A -> bool) l x :
  find p l = None -> p x = true -> find_index p (l ++ [x])%list = Some (List.length l).
Proof.
  intros Hl Hx. induction l as [|y l IH]; simpl in *; [by rewrite Hx|].
  destruct (p y); [done|]. by rewrite IH.
Qed.

Lemma take_snoc_fresh rid l p :
  take rid l = None -> take rid (l ++ [(rid, p)])%list = Some (p, l).
Proof.
  induction l as [|[r q] l IH]; simpl; [by rewrite Nat.eqb_refl|].
  destruct (Nat.eqb r rid); [done|]. destruct (take rid l); [done|]. by intros _; rewrite IH.
Qed.

(** A registration of a fresh address suspends at its hash without
    touching the store. *)
Lemma register_request_fresh st rid dto :
  find (has_email (normalizeEmail (reg_email dto))) (users (store st)) = None ->
  run_event (RegisterRequest rid dto) st =
  mkLoopState (store st) (suspended st ++ [(rid, AwaitHash dto (normalizeEmail (reg_email dto)))])
              (answered st).
Proof. intros Hf. simpl. unfold slice. by rewrite register_check_run, Hf. Qed.

(** ** Theorems *)

(** C19: under every interleaving of register and login requests the
    store invariant holds: ids stay positive, distinct and below the
    counter, because [create] runs in one slice. *)
Theorem loop_reachable_wf st : loop_reachable st -> wf (store st).
Proof.
  induction 1 as [|ev st _ IH]; [apply initial_wf|]. by apply run_event_wf.
Qed.

(** C20: two registrations of the same address (up to case and
    padding) whose slices overlap, the second arriving before the first
    has hashed its password, both succeed and leave two records with
    that address: the duplicate check of [register] does not hold
    across its [await]. *)
Theorem overlapping_registrations_duplicate dto1 dto2 salt1 salt2 t1 t2 :
  normalizeEmail (reg_email dto2) = normalizeEmail (reg_email dto1) ->
  let st := run_events [RegisterRequest 1 dto1; RegisterRequest 2 dto2;
                        HashDone 1 salt1 t1; HashDone 2 salt2 t2] loop_initial in
  loop_reachable st /\ ~ unique_emails (store st) /\
  map (fun '(rid, o) => (rid, is_ok o)) (answered st) = [(1%nat, true); (2%nat, true)].
Proof.
  intros He st. split; [apply run_events_reachable, loop_reachable_initial|].
  unfold st, unique_emails. cbn -[normalizeEmail]. rewrite He. split; [|reflexivity].
  intros Hnd. apply NoDup_cons in Hnd as [Hin _]. apply Hin. by apply list_elem_of_singleton.
Qed.

(** C22: in every interleaving in which no registration starts while
    another registration of the same address awaits its hash, stored
    addresses stay pairwise distinct: overlapping registrations are the
    only way the duplicate check fails. *)
Theorem serial_unique_emails st : serial_reachable st -> unique_emails (store st).
Proof.
  intros Hst. assert (Hinv : serial_inv st).
  { induction Hst as [|ev st _ IH Hov].
    - split_and!; [apply initial_wf|constructor|constructor].
    - by apply run_event_serial_inv. }
  destruct Hinv as (_ & Hnd & _). unfold unique_emails.
  apply NoDup_app in Hnd as [Hnd _]. exact Hnd.
Qed.

(** C29: the ordering of a registration and a login of its address.
    A login that arrives while the registration waits for
    [bcrypt.hash] is answered [UnauthorizedException('Credenciales
    inválidas')], although the registration goes on to succeed; the same
    login arriving once the hash has settled finds the new user and
    suspends at [bcrypt.compare] with the digest just stored. *)
Theorem login_waits_for_hash st dto ldto rid rid' salt now :
  take rid (suspended st) = None ->
  find (has_email (normalizeEmail (reg_email dto))) (users (store st)) = None ->
  normalizeEmail (login_email ldto) = normalizeEmail (reg_email dto) ->
  let st1 := run_event (RegisterRequest rid dto) st in
  answered (run_event (LoginRequest rid' ldto) st1) =
    (answered st ++ [(rid', Thrown invalid_credentials)])%list /\
  let st2 := run_event (HashDone rid salt now) st1 in
  suspended (run_event (LoginRequest rid' ldto) st2) =
    (suspended st ++ [(rid', AwaitCompare ldto (List.length (users (store st)))
                               (bcrypt_hash (reg_password dto) 10 salt))])%list.
Proof.
  intros Ht Hf He st1. unfold st1. rewrite (register_request_fresh _ _ _ Hf). split.
  - simpl. unfold slice, login_lookup. run_M. simpl.
    by rewrite normalizeEmail_idem_eq, He, (find_index_None _ _ Hf).
  - cbn [run_event suspended]. rewrite (take_snoc_fresh _ _ _ Ht). simpl.
    unfold slice. simpl. unfold login_lookup. run_M. simpl.
    rewrite normalizeEmail_idem_eq, He, (find_index_snoc _ _ _ Hf).
    + by rewrite nth_error_app2, Nat.sub_diag.
    + unfold has_email, new_user. simpl. rewrite normalizeEmail_idem_eq. apply String.eqb_refl.
Qed.

(** C30: a registration of an address already stored is answered
    [ConflictException('El email ya está registrado')] in its first
    slice: it never reaches [await bcrypt.hash], is never suspended and
    leaves the store as it was (the cheap check runs before the costly
    hash). *)
Theorem register_taken_no_hash st rid dto u :
  find (has_email (normalizeEmail (reg_email dto))) (users (store st)) = Some u ->
  run_event (RegisterRequest rid dto) st =
  mkLoopState (store st) (suspended st) (answered st ++ [(rid, Thrown email_taken)])%list.
Proof. intros Hf. simpl. unfold slice. by rewrite register_check_run, Hf. Qed.

End Slices.

(** ** Witnesses *)

Lemma loop_reachable_wf_witness :
  let st := run_events sample_options [RegisterRequest 1 ana_register; HashDone 1 "salt" 1000] loop_initial in
  loop_reachable sample_options st /\ wf (store st).
Proof.
  intros st.
  assert (Hr : loop_reachable sample_options st)
    by (apply run_events_reachable, loop_reachable_initial).
  split; [exact Hr|]. exact (loop_reachable_wf sample_options st Hr).
Defined.

Lemma overlapping_registrations_duplicate_witness :
  normalizeEmail " ana@TEST.com" = normalizeEmail (reg_email ana_register) /\
  let st := run_events sample_options
              [RegisterRequest 1 ana_register;
               RegisterRequest 2 (mkRegisterDto "Ana" "D" "ana2" " ana@TEST.com" "pw2");
               HashDone 1 "s1" 100; HashDone 2 "s2" 101] loop_initial in
  loop_reachable sample_options st /\ ~ unique_emails (store st) /\
  map (fun '(rid, o) => (rid, is_ok o)) (answered st) = [(1%nat, true); (2%nat, true)].
Proof.
  assert (He : normalizeEmail " ana@TEST.com" = normalizeEmail (reg_email ana_register))
    by (vm_compute; reflexivity).
  split; [exact He|].
  exact (overlapping_registrations_duplicate sample_options ana_register
           (mkRegisterDto "Ana" "D" "ana2" " ana@TEST.com" "pw2") "s1" "s2" 100 101 He).
Defined.

Lemma serial_unique_emails_witness :
  let st := run_event sample_options (RegisterRequest 2 (mkRegisterDto "Ana" "D" "ana2" " ana@TEST.com" "pw2"))
              (run_event sample_options (HashDone 1 "s1" 100)
                 (run_event sample_options (RegisterRequest 1 ana_register) loop_initial)) in
  serial_reachable sample_options st /\ unique_emails (store st).
Proof.
  intros st.
  assert (Hr : serial_reachable sample_options st).
  { repeat apply serial_reachable_event; try apply serial_reachable_initial;
      try exact I; apply (bool_decide_unpack _); vm_compute; reflexivity. }
  split; [exact Hr|]. exact (serial_unique_emails sample_options st Hr).
Defined.

Lemma login_waits_for_hash_witness :
  let ldto := mkLoginDto " ANA@test.com" "secret1" in
  let st1 := run_event sample_options (RegisterRequest 1 ana_register) loop_initial in
  answered (run_event sample_options (LoginRequest 2 ldto) st1) = [(2%nat, Thrown invalid_credentials)] /\
  let st2 := run_event sample_options (HashDone 1 "salt" 1000) st1 in
  suspended (run_event sample_options (LoginRequest 2 ldto) st2) =
    [(2%nat, AwaitCompare ldto 0 (bcrypt_hash (reg_password ana_register) 10 "salt"))].
Proof.
  apply (login_waits_for_hash sample_options loop_initial ana_register _ 1 2 "salt" 1000);
    [reflexivity|reflexivity|vm_compute; reflexivity].
Defined.

Lemma register_taken_no_hash_witness :
  let st := run_events sample_options [RegisterRequest 1 ana_register; HashDone 1 "salt" 1000] loop_initial in
  run_event sample_options (RegisterRequest 2 ana_register) st =
  mkLoopState (store st) (suspended st) (answered st ++ [(2%nat, Thrown email_taken)])%list.
Proof.
  intros st. eapply (register_taken_no_hash sample_options st 2 ana_register). vm_compute. reflexivity.
Defined.

End EventLoop.
